(** * LancerMpesaBackend: the M-Pesa relay (MpesaRoutes.js)

  A shallow embedding of the access-token cache, the request builders and
  the provider callbacks of [MpesaRoutes.js], and the properties the
  specification states about them.

  Conventions.
  - A JavaScript string is a [string]: a sequence of code units below 256
    (the Latin-1 range), one [ascii] per code unit.  Every string literal
    used below is ASCII.
  - [Date.now()] is an integer number of milliseconds ([Z]).
  - Code that awaits the network or the record store receives the answer
    of that collaborator as an argument. *)

From Stdlib Require Import ZArith QArith Qround Ascii String DecimalString.
From Stdlib Require Import List Lia Bool.
From stdpp Require Import base option gmap strings list.

Set Warnings "-register-all".
Open Scope string_scope.
Open Scope Z_scope.

(** ** JavaScript strings *)

Module JsString.

(** [s.startsWith(p)] *)
Definition startsWith (s p : string) : bool := String.prefix p s.

(** [s.slice(1)] *)
Definition slice1 (s : string) : string :=
  match s with
  | EmptyString => EmptyString
  | String _ rest => rest
  end.

(** [s.replace(/C/g, "")] for a character class [C]: every code unit in the
    class is dropped. *)
Fixpoint remove_class (cls : ascii -> bool) (s : string) : string :=
  match s with
  | EmptyString => EmptyString
  | String c rest =>
      if cls c then remove_class cls rest
      else String c (remove_class cls rest)
  end.

(** [\s]: TAB, LF, VT, FF, CR, SPACE and U+00A0 are the white space code
    units below 256. *)
Definition is_space (c : ascii) : bool :=
  let n := nat_of_ascii c in
  ((9 <=? n) && (n <=? 13) || (n =? 32) || (n =? 160))%nat.

(** [[0-9]] *)
Definition is_digit (c : ascii) : bool :=
  let n := nat_of_ascii c in
  ((48 <=? n) && (n <=? 57))%nat.

(** [[^0-9]] *)
Definition non_digit (c : ascii) : bool := negb (is_digit c).

(** [s.slice(0, -k)]: all but the last [k] code units. *)
Definition drop_last (k : nat) (s : string) : string :=
  String.substring 0 (String.length s - k) s.

Fixpoint all_chars (p : ascii -> bool) (s : string) : bool :=
  match s with
  | EmptyString => true
  | String c rest => p c && all_chars p rest
  end.

End JsString.

(** ** Phone numbers: [formatPhoneNumber] *)

Module Phone.
Import JsString.

(** [/[\s\-+]/] *)
Definition strip_class (c : ascii) : bool :=
  is_space c || Ascii.eqb c "-" || Ascii.eqb c "+".

Definition formatPhoneNumber (phone : string) : string :=
  let cleaned := remove_class strip_class phone in
  let cleaned :=
    if startsWith cleaned "0" then "254" ++ slice1 cleaned else cleaned in
  let cleaned :=
    if negb (startsWith cleaned "254") then "254" ++ cleaned else cleaned in
  cleaned.

(** The rule in the specification's words: strip white space, dashes and
    plus signs; a leading "0" is replaced by "254"; a value that still
    lacks the "254" prefix gets it prepended. *)
Definition strip_spec (s : string) : string :=
  string_of_list_ascii
    (List.filter (fun c => negb (is_space c) && negb (Ascii.eqb c "-")
                           && negb (Ascii.eqb c "+"))
                 (list_ascii_of_string s)).

Definition normalize_spec (phone : string) : string :=
  let cleaned := strip_spec phone in
  let replaced :=
    match cleaned with
    | String c rest => if Ascii.eqb c "0" then "254" ++ rest else cleaned
    | EmptyString => cleaned
    end in
  if String.prefix "254" replaced then replaced else "254" ++ replaced.

End Phone.

(** ** The access-token cache: [accessTokenCache], [generateAccessToken]

  The event loop runs one segment of code at a time, up to the next
  [await].  [generateAccessToken] has two segments: the call itself, up to
  the [await axios.get(...)] inside the immediately invoked async function,
  and the rest of that function, run when the provider's answer arrives.
  An execution is a sequence of these segments in any order. *)

Module TokenCache.

Definition ACCESS_TOKEN_BUFFER_MS : Z := 60 * 1000.

(** The promise stored in [inFlight] is named by a number; the one
    provider request its function issues carries the same name. *)
Definition Handle := nat.
Definition Caller := nat.

Record Cache := {
  token : option string;      (* null or the token *)
  expiresAt : Z;
  inFlight : option Handle;   (* null or the pending promise *)
}.

Definition accessTokenCache : Cache :=
  {| token := None; expiresAt := 0; inFlight := None |}.

(** Truthiness of a value that is null, undefined or a string. *)
Definition truthy (v : option string) : bool :=
  match v with
  | Some s => negb (String.eqb s "")
  | None => false
  end.

(** What [axios.get] on the token endpoint gives: a rejection (network
    error, time-out, status outside 2xx) or a response whose [data] may be
    missing; in [data], [access_token] may be missing and [expires_in] is
    given by its value under [Number(...)]: [None] for NaN. *)
Record AuthData := {
  access_token : option string;
  expires_in : option Z;
}.

Inductive AuthReply :=
| AuthRejected
| AuthResponse (data : option AuthData).

Inductive JsError := Error (message : string).

Inductive Settled :=
| Resolved (tok : string)
| Rejected (err : JsError).

(** What a call hands to its caller: the cached token, or the promise in
    [inFlight]. *)
Inductive Returned :=
| Value (tok : string)
| Pending (h : Handle).

Record State := {
  cache : Cache;
  requests : list Handle;            (* provider requests awaiting a reply *)
  promises : gmap Handle Settled;    (* the promises settled so far *)
  returned : list (Caller * Returned);
  next : Handle;
}.

Definition init : State :=
  {| cache := accessTokenCache; requests := []; promises := ∅;
     returned := []; next := O |}.

(** [token && expiresAt > now] *)
Definition cached (ch : Cache) (now : Z) : bool :=
  truthy (token ch) && (now <? expiresAt ch).

(** First segment: lines 391-406 and 413, then 444. *)
Definition generateAccessToken (c : Caller) (now : Z) (st : State) : State :=
  let ch := cache st in
  if cached ch now then
    {| cache := ch; requests := requests st; promises := promises st;
       returned := returned st ++ [(c, Value (default "" (token ch)))];
       next := next st |}
  else
    match inFlight ch with
    | Some h =>
        {| cache := ch; requests := requests st; promises := promises st;
           returned := returned st ++ [(c, Pending h)];
           next := next st |}
    | None =>
        let h := next st in
        {| cache := {| token := token ch; expiresAt := expiresAt ch;
                       inFlight := Some h |};
           requests := requests st ++ [h];
           promises := promises st;
           returned := returned st ++ [(c, Pending h)];
           next := S h |}
    end.

(** [(Number(expires_in) || 3599) * 1000] *)
Definition ttlMs (expires_in : option Z) : Z :=
  match expires_in with
  | Some n => if n =? 0 then 3599 else n
  | None => 3599
  end * 1000.

(** The token of a reply, when the [try] block runs to its [return]. *)
Definition granted (r : AuthReply) : option (string * option Z) :=
  match r with
  | AuthRejected => None
  | AuthResponse None => None                    (* response.data || {} *)
  | AuthResponse (Some d) =>
      if truthy (access_token d)
      then Some (default "" (access_token d), expires_in d)
      else None                                  (* throw: token missing *)
  end.

Definition acquisitionError : JsError :=
  Error "Failed to generate access token".

(** Second segment: lines 423-441, run when request [h] is answered with
    [r]; [now] is the [Date.now()] of line 430. *)
Definition settle (h : Handle) (r : AuthReply) (now : Z) (st : State) : State :=
  if bool_decide (h ∈ requests st) then
    let ch := cache st in
    let pending := List.filter (fun h' => negb (Nat.eqb h' h)) (requests st) in
    match granted r with
    | Some (tok, e) =>
        {| cache := {| token := Some tok;
                       expiresAt := now + ttlMs e - ACCESS_TOKEN_BUFFER_MS;
                       inFlight := None |};
           requests := pending;
           promises := <[h := Resolved tok]> (promises st);
           returned := returned st;
           next := next st |}
    | None =>
        {| cache := {| token := None; expiresAt := 0; inFlight := None |};
           requests := pending;
           promises := <[h := Rejected acquisitionError]> (promises st);
           returned := returned st;
           next := next st |}
    end
  else st.

Inductive Event :=
| Call (c : Caller) (now : Z)
| Reply (h : Handle) (r : AuthReply) (now : Z).

Arguments Pending h%_nat.
Arguments Call c%_nat now%_Z.
Arguments Reply h%_nat r now%_Z.
Arguments generateAccessToken c%_nat now%_Z st.
Arguments settle h%_nat r now%_Z st.

Definition step (st : State) (e : Event) : State :=
  match e with
  | Call c now => generateAccessToken c now st
  | Reply h r now => settle h r now st
  end.

Definition run (evs : list Event) : State := fold_left step evs init.

(** What a caller that was handed [ret] has received so far. *)
Definition received (st : State) (ret : Returned) : option Settled :=
  match ret with
  | Value tok => Some (Resolved tok)
  | Pending h => promises st !! h
  end.

(** The invariant of the reachable states: the provider requests awaiting
    a reply are exactly the one named by [inFlight], if any; names are
    handed out in increasing order; a settled promise has no request left;
    a cached token is a non-empty string. *)
Record Inv (st : State) : Prop := {
  inv_requests :
    requests st = match inFlight (cache st) with Some h => [h] | None => [] end;
  inv_fresh : forall h, h ∈ requests st -> (h < next st)%nat;
  inv_settled :
    forall h, is_Some (promises st !! h) -> (h < next st)%nat /\ h ∉ requests st;
  inv_token : forall t, token (cache st) = Some t -> t <> "";
  inv_returned :
    forall c h, (c, Pending h) ∈ returned st -> (h < next st)%nat;
}.

End TokenCache.

(** ** Values of request and response bodies

  A body parsed by [express.json()] or received from the provider is a
  JSON value; [JUndefined] stands for a property that is absent.  A number
  is given by its value, an integer of magnitude below 2^53. *)

Module Js.

Inductive JSON :=
| JUndefined
| JNull
| JBool (b : bool)
| JNum (n : Z)
| JStr (s : string)
| JArr (items : list JSON)
| JObj (props : list (string * JSON)).

Inductive Thrown :=
| TypeError                                      (* raised by the engine *)
| AxiosError (message : string) (response_data : JSON)
| PlainError (message : string)                  (* new Error(message) *)
| StoreError.                                    (* raised by the store client *)

Inductive Result (A : Type) :=
| Ok (a : A)
| Throw (e : Thrown).
Arguments Ok {A} a.
Arguments Throw {A} e.

Definition bind {A B} (r : Result A) (k : A -> Result B) : Result B :=
  match r with
  | Ok a => k a
  | Throw e => Throw e
  end.

Notation "'let!' x ':=' r 'in' k" := (bind r (fun x => k))
  (at level 10, x name, r at level 100, k at level 200).

Definition nullish (v : JSON) : bool :=
  match v with
  | JUndefined | JNull => true
  | _ => false
  end.

(** [!!v] *)
Definition truthy (v : JSON) : bool :=
  match v with
  | JUndefined | JNull => false
  | JBool b => b
  | JNum n => negb (n =? 0)
  | JStr s => negb (String.eqb s "")
  | JArr _ | JObj _ => true
  end.

(** The own property [k] of an object literal of the body: with a key
    written twice, [JSON.parse] keeps the last. *)
Fixpoint own_property (props : list (string * JSON)) (k : string) : JSON :=
  match props with
  | [] => JUndefined
  | (k', v) :: rest =>
      match own_property rest k with
      | JUndefined => if String.eqb k' k then v else JUndefined
      | found => found
      end
  end.

(** [v.k], and [const { k } = v], for the property names the handlers
    read.  None of them is a property of [Object.prototype], of an array
    or of a primitive's wrapper, so only an object of the body can hold
    one; reading from [null] or [undefined] throws. *)
Definition prop (v : JSON) (k : string) : Result JSON :=
  match v with
  | JUndefined | JNull => Throw TypeError
  | JObj props => Ok (own_property props k)
  | _ => Ok JUndefined
  end.

(** Decimal numeral of an integer: [String(n)]. *)
Definition decimal (n : Z) : string :=
  NilEmpty.string_of_int (Z.to_int n).

Definition join_comma (parts : list string) : string :=
  String.concat "," parts.

(** [String(v)], the property key [v] stands for in [o[v]]. *)
Fixpoint toString (v : JSON) : string :=
  match v with
  | JUndefined => "undefined"
  | JNull => "null"
  | JBool true => "true"
  | JBool false => "false"
  | JNum n => decimal n
  | JStr s => s
  | JArr items =>
      join_comma
        ((fix elements (l : list JSON) : list string :=
            match l with
            | [] => []
            | x :: rest =>
                (if nullish x then "" else toString x) :: elements rest
            end) items)
  | JObj _ => "[object Object]"
  end.

(** An object built by the code with [{}] and filled by [o[k] = v]: its
    own properties and its prototype.  Assigning "__proto__" reaches the
    setter of [Object.prototype], which replaces the prototype, unless a
    data property of that name is found first. *)
Inductive Proto :=
| ObjectPrototype
| NoPrototype
| ValuePrototype (v : JSON).

Record Obj := {
  own : gmap string JSON;
  proto : Proto;
}.

Definition empty_object : Obj := {| own := ∅; proto := ObjectPrototype |}.

Definition define_own (o : Obj) (k : string) (v : JSON) : Obj :=
  {| own := <[k := v]> (own o); proto := proto o |}.

Definition set_prototype (o : Obj) (v : JSON) : Obj :=
  match v with
  | JObj _ | JArr _ => {| own := own o; proto := ValuePrototype v |}
  | JNull => {| own := own o; proto := NoPrototype |}
  | _ => o
  end.

Definition has_own (props : list (string * JSON)) (k : string) : bool :=
  existsb (fun kv => String.eqb (fst kv) k) props.

(** [o[k] = v] *)
Definition assign (o : Obj) (k : string) (v : JSON) : Obj :=
  if String.eqb k "__proto__" then
    match own o !! k with
    | Some _ => define_own o k v
    | None =>
        match proto o with
        | ObjectPrototype => set_prototype o v
        | NoPrototype => define_own o k v
        | ValuePrototype (JObj props) =>
            if has_own props k then define_own o k v else set_prototype o v
        | ValuePrototype _ => set_prototype o v
        end
    end
  else define_own o k v.

(** [o.k] for a name [k] that [Object.prototype] and arrays do not have. *)
Definition read (o : Obj) (k : string) : JSON :=
  match own o !! k with
  | Some v => v
  | None =>
      match proto o with
      | ValuePrototype (JObj props) => own_property props k
      | _ => JUndefined
      end
  end.

(** [v?.forEach((item) => { o[item.name] = item.value; })] on the empty
    object, for [v] read from a body: nothing for [null] and [undefined],
    the loop for an array, a TypeError for anything else (no value of a
    body is a function). *)
Fixpoint collect (name value : string) (items : list JSON) (o : Obj)
  : Result Obj :=
  match items with
  | [] => Ok o
  | item :: rest =>
      let! k := prop item name in
      let! v := prop item value in
      collect name value rest (assign o (toString k) v)
  end.

Definition flatten (name value : string) (v : JSON) : Result Obj :=
  match v with
  | JUndefined | JNull => Ok empty_object
  | JArr items => collect name value items empty_object
  | _ => Throw TypeError
  end.

(** [a?.k] *)
Definition optional_prop (a : JSON) (k : string) : JSON :=
  match a with
  | JObj props => own_property props k
  | _ => JUndefined
  end.

(** ** Responses written with [res.status(...).json(...)] *)

(** [error.response?.data || error.message]; the message of an error the
    engine or the store client raised is left as it is. *)
Inductive ErrorDetail :=
| ResponseData (d : JSON)
| MessageOf (e : Thrown).

Definition error_detail (e : Thrown) : ErrorDetail :=
  match e with
  | AxiosError _ d => if truthy d then ResponseData d else MessageOf e
  | _ => MessageOf e
  end.

Inductive Body :=
| Json (j : JSON)
| Failure (message : string) (error : ErrorDetail).

Record Response := {
  status : Z;
  body : Body;
}.

End Js.

(** ** Configuration, clock and the signed password *)

Module Mpesa.
Import JsString Js.

(** [process.env.X]: a string, or undefined. *)
Record Env := {
  MPESA_CONSUMER_KEY : option string;
  MPESA_CONSUMER_SECRET : option string;
  MPESA_SHORTCODE : option string;
  MPESA_PASSKEY : option string;
  MPESA_INITIATOR_NAME : option string;
  MPESA_SECURITY_CREDENTIAL : option string;
  MPESA_ENVIRONMENT : option string;
  CALLBACK_BASE_URL_ : option string;
}.

Definition str_truthy (v : option string) : bool :=
  match v with
  | Some s => negb (String.eqb s "")
  | None => false
  end.

(** [v || d] *)
Definition or_default (v : option string) (d : string) : string :=
  match v with
  | Some s => if String.eqb s "" then d else s
  | None => d
  end.

(** A value inside a template literal. *)
Definition interpolate (v : option string) : string :=
  match v with
  | Some s => s
  | None => "undefined"
  end.

Definition json_of (v : option string) : JSON :=
  match v with
  | Some s => JStr s
  | None => JUndefined
  end.

Record Config := {
  consumerKey : option string;
  consumerSecret : option string;
  shortCode : option string;
  passKey : option string;
  initiatorName : option string;
  securityCredential : option string;
  environment : string;
}.

Definition MPESA_CONFIG (env : Env) : Config :=
  {| consumerKey := MPESA_CONSUMER_KEY env;
     consumerSecret := MPESA_CONSUMER_SECRET env;
     shortCode := MPESA_SHORTCODE env;
     passKey := MPESA_PASSKEY env;
     initiatorName := MPESA_INITIATOR_NAME env;
     securityCredential := MPESA_SECURITY_CREDENTIAL env;
     environment := or_default (MPESA_ENVIRONMENT env) "sandbox" |}.

Definition BASE_URL (env : Env) : string :=
  if String.eqb (environment (MPESA_CONFIG env)) "production"
  then "https://api.safaricom.co.ke"
  else "https://sandbox.safaricom.co.ke".

Definition CALLBACK_BASE_URL (env : Env) : string :=
  or_default (CALLBACK_BASE_URL_ env) "https://yourdomain.com/mpesa".

(** *** [Buffer.from(s).toString("base64")] *)

(** UTF-8 bytes of a string of code units below 256. *)
Fixpoint utf8 (s : string) : list N :=
  match s with
  | EmptyString => []
  | String c rest =>
      let n := N_of_ascii c in
      if (n <? 128)%N then n :: utf8 rest
      else (192 + n / 64)%N :: (128 + n mod 64)%N :: utf8 rest
  end.

Definition base64_alphabet : string :=
  "ABCDEFGHIJKLMNOPQRSTUVWXYZabcdefghijklmnopqrstuvwxyz0123456789+/".

Definition sextet (n : N) : string :=
  match String.get (N.to_nat (n mod 64)%N) base64_alphabet with
  | Some c => String c EmptyString
  | None => EmptyString
  end.

Fixpoint base64 (bytes : list N) : string :=
  match bytes with
  | [] => ""
  | [a] =>
      sextet (a / 4) ++ sextet (a * 16) ++ "=="
  | [a; b] =>
      sextet (a / 4) ++ sextet (a * 16 + b / 16) ++ sextet (b * 4) ++ "="
  | a :: b :: c :: rest =>
      sextet (a / 4) ++ sextet (a * 16 + b / 16)
        ++ sextet (b * 4 + c / 64) ++ sextet c ++ base64 rest
  end%N.

(** *** [new Date().toISOString()] *)

(** A reading of the clock in UTC, from the year 0 on. *)
Record Date := {
  year : nat;
  month : nat;      (* 1 to 12 *)
  day : nat;
  hours : nat;
  minutes : nat;
  seconds : nat;
  milliseconds : nat;
}.

Definition digit (n : nat) : string :=
  String (ascii_of_nat (48 + n mod 10)) EmptyString.

Fixpoint pad (width n : nat) : string :=
  match width with
  | O => ""
  | S w => pad w (n / 10) ++ digit n
  end%nat.

(** The year of an ISO string: four digits up to 9999, and the expanded
    form beyond, a sign and six digits (a Date ends in the year 275760). *)
Definition iso_year (y : nat) : string :=
  if (Z.of_nat y <=? 9999) then pad 4 y else "+" ++ pad 6 y.

Definition toISOString (d : Date) : string :=
  iso_year (year d) ++ "-" ++ pad 2 (month d) ++ "-" ++ pad 2 (day d) ++ "T"
    ++ pad 2 (hours d) ++ ":" ++ pad 2 (minutes d) ++ ":"
    ++ pad 2 (seconds d) ++ "." ++ pad 3 (milliseconds d) ++ "Z".

(** *** [generatePassword] *)

Definition generatePassword (env : Env) (now : Date) : string * string :=
  let cfg := MPESA_CONFIG env in
  let timestamp :=
    drop_last 3
      (remove_class non_digit (toISOString now)) in
  let password :=
    base64 (utf8 (interpolate (shortCode cfg) ++ interpolate (passKey cfg)
                    ++ timestamp)) in
  (password, timestamp).

(** *** What a handler does to the outside world, in order *)

Inductive Effect :=
| AcquireToken                          (* await generateAccessToken() *)
| ProviderPost (url : string) (payload : JSON) (bearer : string)
| StoreUpdate (table : string) (fields : list (string * JSON))
              (column : string) (value : JSON)
| CompleteProject (id : JSON).          (* updateProject(id) *)

Definition json (code : Z) (j : JSON) : Response :=
  {| status := code; body := Json j |}.

(** The [catch] block of the three request handlers. *)
Definition failed (message : string) (e : Thrown) : Response :=
  {| status := 500; body := Failure message (error_detail e) |}.

Definition bad_request (message : string) : Response :=
  json 400 (JObj [("status", JStr "error"); ("message", JStr message)]).

(** A request amount: undefined, or a number given by its value. *)
Definition amount_falsy (amount : option Q) : bool :=
  match amount with
  | Some q => Qeq_bool q 0
  | None => true
  end.

(** [amount < bound] *)
Definition amount_below (amount : option Q) (bound : Z) : bool :=
  match amount with
  | Some q => negb (Qle_bool (inject_Z bound) q)
  | None => false
  end.

(** [Math.round(amount)]: the nearest integer, a tie going up. *)
Definition Math_round (q : Q) : Z := Qfloor (q + (1 # 2)).

Definition round_amount (amount : option Q) : JSON :=
  match amount with
  | Some q => JNum (Math_round q)
  | None => JUndefined
  end.

End Mpesa.

(** ** The request handlers

  Each handler is a function of the request body and of what its awaited
  collaborators answer: [tok] for [await generateAccessToken()], [provider]
  for [await axios.post(...)] (the [data] of the response, or the error
  thrown), [store] for the awaited store update.  It gives the effects in
  the order they happen and the response it writes. *)

Module StkPush.
Import JsString Js Mpesa Phone.

(** The fields read from [req.body]. *)
Record Request := {
  phoneNumber : option string;
  amount : option Q;
  accountReference : option string;
  transactionDesc : option string;
}.

Definition stkPushPayload (env : Env) (req : Request)
    (password timestamp formattedPhone : string) : JSON :=
  JObj [
    ("BusinessShortCode", json_of (shortCode (MPESA_CONFIG env)));
    ("Password", JStr "MTc0Mzc5YmZiMjc5ZjlhYTliZGJjZjE1OGU5N2RkNzFhNDY3Y2QyZTBjODkzMDU5YjEwZjc4ZTZiNzJhZGExZWQyYzkxOTIwMjEwNjI4MDkyNDA4");
    ("Timestamp", JStr "20210628092408");
    ("TransactionType", JStr "CustomerPayBillOnline");
    ("Amount", round_amount (amount req));
    ("PartyA", JStr formattedPhone);
    ("PartyB", json_of (shortCode (MPESA_CONFIG env)));
    ("PhoneNumber", JStr formattedPhone);
    ("CallBackURL", JStr (CALLBACK_BASE_URL env ++ "/callback/stk-push"));
    ("AccountReference", JStr (or_default (accountReference req) "Payment"));
    ("TransactionDesc",
      JStr (or_default (transactionDesc req) "Payment for services"))
  ].

(** [router.post("/stk-push", ...)] *)
Definition handler (env : Env) (req : Request) (now : Date)
    (tok : Result string) (provider : Result JSON)
  : list Effect * Response :=
  if negb (str_truthy (phoneNumber req)) || amount_falsy (amount req) then
    ([], bad_request "Phone number and amount are required")
  else if amount_below (amount req) 1 then
    ([], bad_request "Amount must be at least 1 KES")
  else
    match tok with
    | Throw e => ([AcquireToken], failed "Failed to initiate STK Push" e)
    | Ok accessToken =>
        let '(password, timestamp) := generatePassword env now in
        let formattedPhone :=
          formatPhoneNumber (default "" (phoneNumber req)) in
        let payload :=
          stkPushPayload env req password timestamp formattedPhone in
        let sent :=
          [AcquireToken;
           ProviderPost (BASE_URL env ++ "/mpesa/stkpush/v1/processrequest")
                        payload accessToken] in
        match
          (let! data := provider in
           let! merchantRequestID := prop data "MerchantRequestID" in
           let! checkoutRequestID := prop data "CheckoutRequestID" in
           let! responseCode := prop data "ResponseCode" in
           let! responseDescription := prop data "ResponseDescription" in
           let! customerMessage := prop data "CustomerMessage" in
           Ok (JObj [
             ("status", JStr "success");
             ("message", JStr "STK Push initiated successfully");
             ("data", JObj [
                ("merchantRequestID", merchantRequestID);
                ("checkoutRequestID", checkoutRequestID);
                ("responseCode", responseCode);
                ("responseDescription", responseDescription);
                ("customerMessage", customerMessage)])]))
        with
        | Ok reply => (sent, json 200 reply)
        | Throw e => (sent, failed "Failed to initiate STK Push" e)
        end
    end.

End StkPush.

Module QueryStk.
Import JsString Js Mpesa.

Record Request := {
  checkoutRequestID : option string;
}.

Definition queryPayload (env : Env) (req : Request)
    (password timestamp : string) : JSON :=
  JObj [
    ("BusinessShortCode", json_of (shortCode (MPESA_CONFIG env)));
    ("Password", JStr "MTc0Mzc5YmZiMjc5ZjlhYTliZGJjZjE1OGU5N2RkNzFhNDY3Y2QyZTBjODkzMDU5YjEwZjc4ZTZiNzJhZGExZWQyYzkxOTIwMjEwNjI4MDkyNDA4");
    ("Timestamp", JStr "20210628092408");
    ("CheckoutRequestID", json_of (checkoutRequestID req))
  ].

(** [router.post("/query-stk", ...)] *)
Definition handler (env : Env) (req : Request) (now : Date)
    (tok : Result string) (provider : Result JSON)
  : list Effect * Response :=
  if negb (str_truthy (checkoutRequestID req)) then
    ([], bad_request "CheckoutRequestID is required")
  else
    match tok with
    | Throw e => ([AcquireToken], failed "Failed to query transaction" e)
    | Ok accessToken =>
        let '(password, timestamp) := generatePassword env now in
        let payload := queryPayload env req password timestamp in
        let sent :=
          [AcquireToken;
           ProviderPost (BASE_URL env ++ "/mpesa/stkpushquery/v1/query")
                        payload accessToken] in
        match provider with
        | Ok data =>
            (sent, json 200 (JObj [("status", JStr "success");
                                   ("data", data)]))
        | Throw e => (sent, failed "Failed to query transaction" e)
        end
    end.

End QueryStk.

Module B2C.
Import JsString Js Mpesa Phone.

Record Request := {
  phoneNumber : option string;
  transaction : JSON;
  finalProjectId : JSON;
  amount : option Q;
  remarks : option string;
  occasion : option string;
}.

Definition b2cPayload (env : Env) (req : Request) (formattedPhone : string)
  : JSON :=
  JObj [
    ("OriginatorConversationID", JStr "600997_Test_32et3241ed8yu");
    ("InitiatorName", json_of (initiatorName (MPESA_CONFIG env)));
    ("SecurityCredential", json_of (securityCredential (MPESA_CONFIG env)));
    ("CommandID", JStr "BusinessPayment");
    ("Amount", round_amount (amount req));
    ("PartyA", json_of (shortCode (MPESA_CONFIG env)));
    ("PartyB", JStr formattedPhone);
    ("Remarks", JStr (or_default (remarks req) "Payment to freelancer"));
    ("QueueTimeOutURL", JStr (CALLBACK_BASE_URL env ++ "/callback/b2c-timeout"));
    ("ResultURL", JStr (CALLBACK_BASE_URL env ++ "/callback/b2c-result"));
    ("Occasion", JStr (or_default (occasion req) "Freelancer Payment"))
  ].

(** The response of line 760, read from the provider's [data]. *)
Definition success (data : JSON) : Result JSON :=
  let! conversationID := prop data "ConversationID" in
  let! originatorConversationID := prop data "OriginatorConversationID" in
  let! responseCode := prop data "ResponseCode" in
  let! responseDescription := prop data "ResponseDescription" in
  Ok (JObj [
    ("status", JStr "success");
    ("message", JStr "B2C payment initiated successfully");
    ("data", JObj [
       ("conversationID", conversationID);
       ("originatorConversationID", originatorConversationID);
       ("responseCode", responseCode);
       ("responseDescription", responseDescription)])]).

(** [router.post("/b2c-payment", ...)] *)
Definition handler (env : Env) (req : Request)
    (tok : Result string) (provider : Result JSON) (store : Result unit)
  : list Effect * Response :=
  let failure := failed "Failed to initiate B2C payment" in
  if negb (str_truthy (phoneNumber req)) || amount_falsy (amount req) then
    ([], bad_request "Phone number and amount are required")
  else if amount_below (amount req) 10 then
    ([], bad_request "Minimum B2C amount is 10 KES")
  else
    match tok with
    | Throw e => ([AcquireToken], failure e)
    | Ok accessToken =>
        let formattedPhone :=
          formatPhoneNumber (default "" (phoneNumber req)) in
        let payload := b2cPayload env req formattedPhone in
        let sent :=
          [AcquireToken;
           ProviderPost (BASE_URL env ++ "/mpesa/b2c/v3/paymentrequest")
                        payload accessToken] in
        match provider with
        | Throw e => (sent, failure e)
        | Ok data =>
            (* 3. Update transaction *)
            match (let! conversation := prop data "conversationID" in
                   let! id := prop (transaction req) "id" in
                   Ok (StoreUpdate "transactions"
                         [("status", JStr "released");
                          ("mpesa_conversation_id", conversation)]
                         "id" id))
            with
            | Throw e => (sent, failure e)
            | Ok update =>
                match store with
                | Throw e => ((sent ++ [update])%list, failure e)
                | Ok _ =>
                    let project :=
                      if truthy (finalProjectId req)
                      then [CompleteProject (finalProjectId req)] else [] in
                    match success data with
                    | Ok reply =>
                        ((sent ++ [update] ++ project)%list, json 200 reply)
                    | Throw e => ((sent ++ [update] ++ project)%list, failure e)
                    end
                end
            end
        end
    end.

End B2C.

(** ** The provider callbacks *)

Module Callbacks.
Import JsString Js Mpesa.

Definition accepted : Response :=
  json 200 (JObj [("ResultCode", JNum 0); ("ResultDesc", JStr "Accepted")]).

(** The [try] block of [router.post("/callback/stk-push", ...)], up to its
    [res.status(200).json(...)]. *)
Definition stk_push_try (body : JSON) : Result unit :=
  let! Body := prop body "Body" in
  let! stkCallback := prop Body "stkCallback" in
  let! MerchantRequestID := prop stkCallback "MerchantRequestID" in
  let! CheckoutRequestID := prop stkCallback "CheckoutRequestID" in
  let! ResultCode := prop stkCallback "ResultCode" in
  let! ResultDesc := prop stkCallback "ResultDesc" in
  let! CallbackMetadata := prop stkCallback "CallbackMetadata" in
  match ResultCode with
  | JNum 0 =>
      let! metadata :=
        flatten "Name" "Value" (optional_prop CallbackMetadata "Item") in
      Ok tt
  | _ => Ok tt
  end.

Definition stk_push (body : JSON) : list Effect * Response :=
  match stk_push_try body with
  | Ok _ => ([], accepted)
  | Throw _ => ([], accepted)
  end.

(** The [try] block of [router.post("/callback/b2c-result", ...)], up to
    the awaited store update: the update it asks for. *)
Definition b2c_result_update (body : JSON) (now : Date) : Result Effect :=
  let! Result := prop body "Result" in
  let! ResultCode := prop Result "ResultCode" in
  let! ResultDesc := prop Result "ResultDesc" in
  let! ResultParameters := prop Result "ResultParameters" in
  let! ConversationID := prop Result "ConversationID" in
  match ResultCode with
  | JNum 0 =>
      let! parameters :=
        flatten "Key" "Value"
          (optional_prop ResultParameters "ResultParameter") in
      Ok (StoreUpdate "transactions"
            [("status", JStr "released");
             ("mpesa_transaction_id", read parameters "TransactionID");
             ("b2c_result_code", JStr "0");
             ("b2c_result_description", ResultDesc);
             ("released_at", JStr (toISOString now))]
            "mpesa_conversation_id" ConversationID)
  | _ =>
      Ok (StoreUpdate "transactions"
            [("status", JStr "failed");
             ("b2c_result_code", ResultCode);
             ("b2c_result_description", ResultDesc)]
            "mpesa_conversation_id" ConversationID)
  end.

Definition b2c_result (body : JSON) (now : Date) (store : Result unit)
  : list Effect * Response :=
  match b2c_result_update body now with
  | Throw _ => ([], accepted)
  | Ok update =>
      match store with
      | Ok _ => ([update], accepted)
      | Throw _ => ([update], accepted)
      end
  end.

(** [router.post("/callback/b2c-timeout", ...)] *)
Definition b2c_timeout (body : JSON) : list Effect * Response :=
  ([], accepted).

(** A result parameter of the provider: an object with a string [Key] and
    a [Value]. *)
Definition key_value (item : JSON) (kv : string * JSON) : Prop :=
  exists props,
    item = JObj props /\
    own_property props "Key" = JStr (fst kv) /\
    own_property props "Value" = snd kv.

(** The parameter list of a callback: absent, or an array. *)
Definition parameter_list (v : JSON) (items : list JSON) : Prop :=
  v = JArr items \/ (nullish v = true /\ items = []).

(** The object the loop builds from key/value pairs. *)
Definition assign_all (kvs : list (string * JSON)) : Obj :=
  fold_left (fun o kv => assign o (fst kv) (snd kv)) kvs empty_object.

End Callbacks.

(** ** The application: [src/index.js]

  The body parsers are mounted before the router (lines 25-26) and the
  error middleware last (lines 49-55).  What a parser makes of the text of
  a request is the library's; its two outcomes are inputs here.  Either it
  calls [next()], and the route runs with [req.body] as the parsers left
  it; or it calls [next(err)] (a text that is not JSON, a body over the
  size limit), and express skips the routes and calls the error
  middleware. *)

Module App.
Import Js Mpesa Callbacks.







End App.

(** ** The record store

  The [transactions] table as the handlers use it: rows of named columns,
  and [update(fields).eq(column, value)], which writes the fields that are
  not undefined into every row whose [column] holds the text [value]. *)

Module Store.
Import Js Mpesa.

Definition merge (fields : list (string * JSON)) (row : gmap string JSON)
  : gmap string JSON :=
  fold_left
    (fun r kv => match snd kv with
                 | JUndefined => r
                 | v => <[fst kv := v]> r
                 end)
    fields row.

Definition matches (column : string) (value : JSON) (row : gmap string JSON)
  : bool :=
  match value, row !! column with
  | JStr v, Some (JStr held) => String.eqb v held
  | _, _ => false
  end.

Definition update (fields : list (string * JSON)) (column : string)
    (value : JSON) (rows : list (gmap string JSON))
  : list (gmap string JSON) :=
  (fun row => if matches column value row then merge fields row else row)
    <$> rows.

Definition apply (e : Effect) (rows : list (gmap string JSON))
  : list (gmap string JSON) :=
  match e with
  | StoreUpdate "transactions" fields column value =>
      update fields column value rows
  | _ => rows
  end.

End Store.

(** ** Sample inputs: the sandbox configuration and provider messages *)

Module Sample.
Import Js Mpesa.

Definition sandbox : Env :=
  {| MPESA_CONSUMER_KEY := Some "key";
     MPESA_CONSUMER_SECRET := Some "secret";
     MPESA_SHORTCODE := Some "174379";
     MPESA_PASSKEY :=
       Some "bfb279f9aa9bdbcf158e97dd71a467cd2e0c893059b10f78e6b72ada1ed2c919";
     MPESA_INITIATOR_NAME := Some "testapi";
     MPESA_SECURITY_CREDENTIAL := Some "credential";
     MPESA_ENVIRONMENT := None;
     CALLBACK_BASE_URL_ := None |}.

(** 2026-11-02T09:24:08.123Z *)
Definition today : Date :=
  {| year := 2026; month := 11; day := 2; hours := 9; minutes := 24;
     seconds := 8; milliseconds := 123 |}.

(** 2021-06-28T09:24:08.000Z *)
Definition june_2021 : Date :=
  {| year := 2021; month := 6; day := 28; hours := 9; minutes := 24;
     seconds := 8; milliseconds := 0 |}.

Definition literal_password : string :=
  "MTc0Mzc5YmZiMjc5ZjlhYTliZGJjZjE1OGU5N2RkNzFhNDY3Y2QyZTBjODkzMDU5YjEwZjc4ZTZiNzJhZGExZWQyYzkxOTIwMjEwNjI4MDkyNDA4".

Definition charge : StkPush.Request :=
  {| StkPush.phoneNumber := Some "254746221954";
     StkPush.amount := Some (10 # 1);
     StkPush.accountReference := Some "TEST_001";
     StkPush.transactionDesc := Some "Test Payment" |}.

Definition charge_accepted : JSON :=
  JObj [("MerchantRequestID", JStr "29115-34620561-1");
        ("CheckoutRequestID", JStr "ws_CO_191220191020363925");
        ("ResponseCode", JStr "0");
        ("ResponseDescription", JStr "Success. Request accepted for processing");
        ("CustomerMessage", JStr "Success. Request accepted for processing")].

Definition query : QueryStk.Request :=
  {| QueryStk.checkoutRequestID := Some "ws_CO_191220191020363925" |}.

(** The provider's acknowledgment of a payout request. *)
Definition payout_accepted : JSON :=
  JObj [("ConversationID", JStr "AG_20191219_00005797af5d7d75f652");
        ("OriginatorConversationID", JStr "16740-34861180-1");
        ("ResponseCode", JStr "0");
        ("ResponseDescription", JStr "Accept the service request successfully.")].

Definition payout : B2C.Request :=
  {| B2C.phoneNumber := Some "0746221954";
     B2C.transaction := JObj [("id", JStr "tx-1")];
     B2C.finalProjectId := JUndefined;
     B2C.amount := Some (100 # 1);
     B2C.remarks := None;
     B2C.occasion := None |}.

Definition payout_without_transaction : B2C.Request :=
  {| B2C.phoneNumber := Some "0746221954";
     B2C.transaction := JUndefined;
     B2C.finalProjectId := JUndefined;
     B2C.amount := Some (100 # 1);
     B2C.remarks := None;
     B2C.occasion := None |}.

Definition result_parameters : list (string * JSON) :=
  [("TransactionAmount", JNum 10);
   ("TransactionID", JStr "NLJ41HAY6Q");
   ("ReceiverPartyPublicName", JStr "254746221954 - John Doe")].

Definition result_parameter (kv : string * JSON) : JSON :=
  JObj [("Key", JStr (fst kv)); ("Value", snd kv)].

Definition payout_result_fields (code : Z) : list (string * JSON) :=
  [("ResultType", JNum 0);
   ("ResultCode", JNum code);
   ("ResultDesc", JStr "The service request is processed successfully.");
   ("OriginatorConversationID", JStr "16740-34861180-1");
   ("ConversationID", JStr "AG_20191219_00005797af5d7d75f652");
   ("TransactionID", JStr "NLJ41HAY6Q");
   ("ResultParameters", JObj [
      ("ResultParameter",
       JArr (List.map result_parameter result_parameters))])].

Definition payout_result (code : Z) : JSON :=
  JObj [("Result", JObj (payout_result_fields code))].

(** The table before the payout: the record of the payout, and another. *)
Definition transactions : list (gmap string JSON) :=
  [ {[ "id" := JStr "tx-1"; "status" := JStr "held_in_escrow" ]};
    {[ "id" := JStr "tx-2"; "status" := JStr "pending";
       "mpesa_conversation_id" := JStr "AG_other" ]} ].

End Sample.

(** ** The record-store helpers of [supabase.js]

  Each helper awaits one or two queries of the store client.  What an
  awaited query gives is an argument: the value it resolves to (an object
  with [data] and [error]), or the error it throws.  A helper gives the
  queries it sent, in order, and the object it returns.  A query is given
  by its table, its operation and its filter; the client it is sent with
  ([supabase] or [supabaseAdmin]) and the end of the chain ([.select()],
  [.single()], [.maybeSingle()]) decide only what the store answers. *)

Module Supabase.
Import JsString Js Mpesa.

Inductive Query :=
| Insert (table : string) (row : gmap string JSON)
| Select (table columns column : string) (value : JSON)
| Update (table : string) (fields : gmap string JSON)
         (column : string) (value : JSON)
| Upsert (table : string) (row : gmap string JSON) (onConflict : string).

(** The [error] of a returned object: null, a value (the store's error or
    an object literal), or an error object (made with [new Error], or caught). *)
Inductive ErrorValue :=
| NoError
| Value (j : JSON)
| Raised (e : Thrown).

(** A returned object: its first property ([data], [transaction] or
    [stripeAccountId]) and its [error]. *)
Record Outcome := {
  value : JSON;
  error : ErrorValue;
}.

Definition caught (e : Thrown) : Outcome :=
  {| value := JNull; error := Raised e |}.

Definition refused (e : JSON) : Outcome :=
  {| value := JNull; error := Value e |}.

Definition found (v : JSON) : Outcome :=
  {| value := v; error := NoError |}.

(** The body of a [try] block that may throw, under its [catch] block
    [return { data: null, error }]. *)
Definition try_catch (body : Result Outcome) : Outcome :=
  match body with
  | Ok o => o
  | Throw e => caught e
  end.

(** [InsertTransaction], lines 3-42. *)
Definition InsertTransaction
    (projectId bidId clientId freelancerId amount platformFee
       freelancerAmount paymentIntentId : JSON)
    (answer : Result JSON) : list Query * Outcome :=
  ([Insert "transactions"
      (list_to_map
         [("project_id", projectId); ("bid_id", bidId);
          ("client_id", clientId); ("freelancer_id", freelancerId);
          ("amount", amount); ("platform_fee", platformFee);
          ("freelancer_amount", freelancerAmount);
          ("status", JStr "pending"); ("payment_provider", JStr "stripe");
          ("payment_intent_id", paymentIntentId)])],
   try_catch
     (let! answered := answer in
      let! transaction := prop answered "data" in
      let! transError := prop answered "error" in
      if truthy transError then Ok (refused transError)
      else
        let! logged := prop transaction "id" in
        Ok (found transaction))).

(** [Commission], lines 43-57: what it returns. *)
Definition Commission (answer : Result JSON) : list Query * JSON :=
  ([Select "platform_settings" "setting_value" "setting_key"
      (JStr "commission_rate")],
   match (let! answered := answer in
          let! settingData := prop answered "data" in
          let! settingError := prop answered "error" in
          Ok settingData) with
   | Ok settingData => settingData
   | Throw _ => JUndefined
   end).

(** [updateTransaction], lines 58-85. *)
Definition updateTransaction (Intent : JSON) (now : Date)
    (answer : Result JSON) : list Query * Outcome :=
  ([Update "transactions"
      (list_to_map [("status", JStr "held_in_escrow");
                    ("escrowed_at", JStr (toISOString now))])
      "payment_intent_id" Intent],
   try_catch
     (let! answered := answer in
      let! data := prop answered "data" in
      let! error := prop answered "error" in
      if truthy error then Ok (refused error)
      else if negb (truthy data) then
        Ok (caught (PlainError "Transaction not found"))
      else Ok (found data))).

(** [getTransaction], lines 86-113. *)
Definition getTransaction (transactionId : JSON) (answer : Result JSON)
  : list Query * Outcome :=
  ([Select "transactions" "*" "id" transactionId],
   try_catch
     (let! answered := answer in
      let! transaction := prop answered "data" in
      let! error := prop answered "error" in
      if truthy error then Ok (refused error)
      else if negb (truthy transaction) then
        Ok (caught (PlainError "Transaction not found"))
      else Ok (found transaction))).

(** [{ ...defaultUpdates, ...updates }]: the properties of [updates], and
    those of [defaultUpdates] that [updates] does not have. *)
Definition spread (defaults updates : gmap string JSON) : gmap string JSON :=
  updates ∪ defaults.

(** [updateById], lines 115-139; [updates] is [{}] when not given. *)
Definition updateById (transactionId : JSON) (updates : gmap string JSON)
    (now : Date) (answer : Result JSON) : list Query * Outcome :=
  let defaultUpdates : gmap string JSON :=
    list_to_map [("status", JStr "released");
                 ("updated_at", JStr (toISOString now))] in
  ([Update "transactions" (spread defaultUpdates updates) "id" transactionId],
   try_catch
     (let! answered := answer in
      let! data := prop answered "data" in
      let! error := prop answered "error" in
      if truthy error then Ok (refused error)
      else Ok (found data))).

(** [updateProject], lines 141-193. *)
Definition updateProject (id : JSON) (fetched updated : Result JSON)
  : list Query * Outcome :=
  let fetch := Select "projects" "id, status" "id" id in
  let change :=
    Update "projects" (list_to_map [("status", JStr "completed")]) "id" id in
  match (let! answered := fetched in
         let! existingProject := prop answered "data" in
         let! fetchError := prop answered "error" in
         Ok (existingProject, fetchError)) with
  | Throw e => ([fetch], caught e)
  | Ok (existingProject, fetchError) =>
      if truthy fetchError then ([fetch], refused fetchError)
      else if negb (truthy existingProject) then
        ([fetch],
         refused (JObj [("message",
                         JStr ("Project not found with id: " ++ toString id))]))
      else
        ([fetch; change],
         try_catch
           (let! answered := updated in
            let! data := prop answered "data" in
            let! error := prop answered "error" in
            if truthy error then Ok (refused error)
            else if negb (truthy data) then
              Ok (refused (JObj [("message", JStr "No project was updated")]))
            else Ok (found data)))
  end.

(** [getFreelancerStripeAccount], lines 196-217. *)
Definition getFreelancerStripeAccount (userId : JSON) (answer : Result JSON)
  : list Query * Outcome :=
  ([Select "freelancer_profiles" "stripe_account_id" "user_id" userId],
   try_catch
     (let! answered := answer in
      let! data := prop answered "data" in
      let! error := prop answered "error" in
      if truthy error then Ok (refused error)
      else
        let id := optional_prop data "stripe_account_id" in
        Ok (found (if truthy id then id else JNull)))).

(** The four helpers that return the store's [data] as it is:
    [if (error) return { data: null, error }; return { data, error: null }]. *)
Definition data_or_error (answer : Result JSON) : Outcome :=
  try_catch
    (let! answered := answer in
     let! data := prop answered "data" in
     let! error := prop answered "error" in
     if truthy error then Ok (refused error) else Ok (found data)).

(** [updateFreelancerStripeAccount], lines 220-252. *)
Definition updateFreelancerStripeAccount (userId stripeAccountId : JSON)
    (now : Date) (answer : Result JSON) : list Query * Outcome :=
  ([Upsert "freelancer_profiles"
      (list_to_map [("user_id", userId);
                    ("stripe_account_id", stripeAccountId);
                    ("updated_at", JStr (toISOString now))])
      "user_id"],
   data_or_error answer).

(** [removeFreelancerStripeAccount], lines 255-278. *)
Definition removeFreelancerStripeAccount (userId : JSON) (now : Date)
    (answer : Result JSON) : list Query * Outcome :=
  ([Update "freelancer_profiles"
      (list_to_map [("stripe_account_id", JNull);
                    ("updated_at", JStr (toISOString now))])
      "user_id" userId],
   data_or_error answer).

(** [profileCheck], lines 279-295. *)
Definition profileCheck (userId : JSON) (answer : Result JSON)
  : list Query * Outcome :=
  ([Select "freelancer_profiles" "stripe_account_id" "user_id" userId],
   data_or_error answer).

(** [updateLancer], lines 296-320. *)
Definition updateLancer (userId accountId : JSON) (now : Date)
    (answer : Result JSON) : list Query * Outcome :=
  ([Upsert "freelancer_profiles"
      (list_to_map [("user_id", userId);
                    ("stripe_account_id", accountId);
                    ("updated_at", JStr (toISOString now))])
      "user_id"],
   data_or_error answer).

(** A returned object is usable when its error is null and its first
    property is neither null nor undefined. *)
Definition usable (o : Outcome) : Prop :=
  error o = NoError /\ nullish (value o) = false.

Definition failure (o : Outcome) : Prop :=
  error o <> NoError /\ value o = JNull.

(** What the store keeps of the fields of an update: those that are not
    undefined, over the columns the row had. *)
Definition defined (v : JSON) : bool :=
  match v with
  | JUndefined => false
  | _ => true
  end.

Definition written (fields row : gmap string JSON) : gmap string JSON :=
  filter (fun kv => defined (snd kv) = true) fields ∪ row.

End Supabase.

(** ** The utility routes *)

Module Utility.
Import JsString Js Mpesa Phone.

(** [s.includes(sub)] *)
Fixpoint includes (s sub : string) : bool :=
  startsWith s sub ||
  match s with
  | EmptyString => false
  | String _ rest => includes rest sub
  end.

(** [s.substring(0, n) + "..."] *)
Definition preview (n : nat) (s : string) : string :=
  String.substring 0 n s ++ "...".

(** [formatPhoneNumber(phone)] on a value of the body: [phone.replace] is
    a function on a string only, and calling it on anything else throws. *)
Definition format_value (phone : JSON) : Result string :=
  match phone with
  | JStr s => Ok (formatPhoneNumber s)
  | _ => Throw TypeError
  end.

(** The [catch] block of [/validate-phone]: status 500 with the message of
    the error. *)
Definition validation_failed (e : Thrown) : Response :=
  {| status := 500; body := Failure "Phone validation failed" (MessageOf e) |}.

(** [router.post("/validate-phone", ...)], lines 900-936, on [req.body]. *)
Definition validate_phone (reqBody : JSON) : Response :=
  match
    (let! phoneNumber := prop reqBody "phoneNumber" in
     if negb (truthy phoneNumber) then
       Ok (bad_request "Phone number is required")
     else
       let! formattedPhone := format_value phoneNumber in
       if negb (Nat.eqb (String.length formattedPhone) 12)
          || negb (startsWith formattedPhone "254") then
         Ok (bad_request "Invalid Kenyan phone number")
       else
         Ok (json 200 (JObj [
               ("status", JStr "success");
               ("data", JObj [
                  ("original", phoneNumber);
                  ("formatted", JStr formattedPhone);
                  ("isValid", JBool true)])])))
  with
  | Ok response => response
  | Throw e => validation_failed e
  end.

(** [!x || x.includes("your_")] *)
Definition placeholder (v : option string) : bool :=
  negb (str_truthy v) || includes (default "" v) "your_".

(** The [issues] of [router.get("/debug-config", ...)], lines 960-973. *)
Definition issues (env : Env) : list string :=
  let cfg := MPESA_CONFIG env in
  ((if placeholder (consumerKey cfg)
    then ["Consumer Key is not set or is a placeholder"] else [])
   ++ (if placeholder (consumerSecret cfg)
       then ["Consumer Secret is not set or is a placeholder"] else [])
   ++ (if placeholder (shortCode cfg)
       then ["Shortcode is not set or is a placeholder"] else [])
   ++ (if placeholder (passKey cfg)
       then ["Passkey is not set or is a placeholder"] else []))%list.

(** [x ? x.substring(0, 10) + "..." : "NOT SET"] *)
Definition credential_preview (v : option string) : string :=
  if str_truthy v then preview 10 (default "" v) else "NOT SET".

(** [router.get("/debug-config", ...)], lines 942-1001. *)
Definition debug_config (env : Env) : Response :=
  let cfg := MPESA_CONFIG env in
  let config :=
    JObj [
      ("hasConsumerKey", JBool (str_truthy (consumerKey cfg)));
      ("hasConsumerSecret", JBool (str_truthy (consumerSecret cfg)));
      ("hasShortCode", JBool (str_truthy (shortCode cfg)));
      ("hasPassKey", JBool (str_truthy (passKey cfg)));
      ("environment", JStr (environment cfg));
      ("consumerKeyPreview", JStr (credential_preview (consumerKey cfg)));
      ("consumerSecretPreview",
       JStr (credential_preview (consumerSecret cfg)));
      ("shortCode", JStr (or_default (shortCode cfg) "NOT SET"));
      ("baseUrl", JStr (BASE_URL env))] in
  let found := issues env in
  let clean := Nat.eqb (List.length found) 0 in
  json 200 (JObj [
    ("status", JStr (if clean then "success" else "warning"));
    ("message", JStr (if clean then "Configuration looks good"
                      else "Configuration issues found"));
    ("config", config);
    ("issues", JArr (List.map JStr found));
    ("nextSteps",
     JArr (List.map JStr
       (if negb clean then
          ["1. Check your .env file";
           "2. Make sure you've copied actual credentials from Daraja portal";
           "3. Restart your server after updating .env";
           "4. Run: node verify-credentials.js"]
        else
          ["1. Run: node verify-credentials.js to test token generation";
           "2. Test STK Push with the test script"])))]).

(** [router.get("/test-token", ...)], lines 1008-1038; [tok] is what
    [await generateAccessToken()] gives. *)
Definition test_token (tok : TokenCache.Settled) : Response :=
  match tok with
  | TokenCache.Resolved accessToken =>
      json 200 (JObj [
        ("status", JStr "success");
        ("message", JStr "Access token generated successfully");
        ("tokenPreview", JStr (preview 20 accessToken));
        ("tokenLength", JNum (Z.of_nat (String.length accessToken)))])
  | TokenCache.Rejected (TokenCache.Error message) =>
      json 500 (JObj [
        ("status", JStr "error");
        ("message", JStr "Failed to generate access token");
        ("error", JStr message);
        ("possibleCauses", JArr (List.map JStr
           ["Consumer Key is incorrect";
            "Consumer Secret is incorrect";
            "Using wrong environment credentials (sandbox vs production)";
            "Credentials have extra spaces"]));
        ("howToFix", JArr (List.map JStr
           ["1. Go to https://developer.safaricom.co.ke/";
            "2. Login and select your app";
            "3. Copy Consumer Key and Consumer Secret exactly";
            "4. Update .env file (remove any spaces)";
            "5. Restart your server"]))])
  end.

(** A credential that raises no issue: set, not empty, and without
    "your_" anywhere in it. *)
Definition configured (v : option string) : Prop :=
  exists s, v = Some s /\ s <> "" /\
            forall a b, s <> (a ++ "your_" ++ b)%string.

End Utility.

(** ** Reading a password back

  The decoding of base64 (RFC 4648, with padding), the inverse of
  [Buffer.from(...).toString("base64")]: what the provider does with the
  [Password] it is sent. *)

Module Base64.
Import Mpesa.

(** The position of a code unit in the alphabet. *)
Fixpoint position (c : ascii) (alphabet : string) (from : N) : option N :=
  match alphabet with
  | EmptyString => None
  | String c' rest =>
      if Ascii.eqb c c' then Some from else position c rest (from + 1)%N
  end.

Definition unsextet (c : ascii) : option N := position c base64_alphabet 0.

Fixpoint decode (s : string) : option (list N) :=
  match s with
  | EmptyString => Some []
  | String a (String b (String c (String d rest))) =>
      match unsextet a, unsextet b with
      | Some i1, Some i2 =>
          let b1 := (i1 * 4 + i2 / 16)%N in
          if Ascii.eqb d "=" then
            if negb (String.eqb rest "") then None
            else if Ascii.eqb c "=" then Some [b1]
            else
              match unsextet c with
              | Some i3 => Some [b1; ((i2 mod 16) * 16 + i3 / 4)%N]
              | None => None
              end
          else
            match unsextet c, unsextet d, decode rest with
            | Some i3, Some i4, Some bytes =>
                Some (b1 :: ((i2 mod 16) * 16 + i3 / 4)%N
                         :: ((i3 mod 4) * 64 + i4)%N :: bytes)
            | _, _, _ => None
            end
      | _, _ => None
      end
  | _ => None
  end.

Definition byte (b : N) : Prop := (b < 256)%N.

(** The alphabet read at [m] and looked up again gives [m], and is not the
    padding. *)
Definition alphabet_checked (m : N) : bool :=
  match String.get (N.to_nat m) base64_alphabet with
  | Some c =>
      match unsextet c with
      | Some m' => N.eqb m' m && negb (Ascii.eqb c "=")
      | None => false
      end
  | None => false
  end.

End Base64.

(** ** Reading the effects of a handler *)

Module Effects.
Import Js Mpesa.



(** [amount] is missing or below [bound]; a phone number or a request id is
    missing or empty. *)
Definition too_small (amount : option Q) (bound : Z) : Prop :=
  amount = None \/ exists q, amount = Some q /\ (q < inject_Z bound)%Q.

Definition missing (v : option string) : Prop :=
  v = None \/ v = Some "".

End Effects.

(** ** Counting the events of an execution of the token cache *)

Module TokenTrace.
Import TokenCache.

Definition is_reply (e : Event) : bool :=
  match e with
  | Reply _ _ _ => true
  | Call _ _ => false
  end.

Definition replies (evs : list Event) : nat :=
  List.length (List.filter is_reply evs).

Definition calls (evs : list Event) : nat :=
  List.length (List.filter (fun e => negb (is_reply e)) evs).

(** The token granted by event [e], if it is an answer carrying one. *)
Definition grant (e : Event) : option string :=
  match e with
  | Reply _ r _ => fst <$> granted r
  | Call _ _ => None
  end.

(** A burst: calls one after the other, no answer in between. *)
Definition burst (callers : list (Caller * Z)) : list Event :=
  List.map (fun cn => Call (fst cn) (snd cn)) callers.

(** What the promise of an acquisition settles to when the provider
    answers [r]. *)
Definition outcome (r : AuthReply) : Settled :=
  match granted r with
  | Some (tok, _) => Resolved tok
  | None => Rejected acquisitionError
  end.

(** The accounting of the names handed out: they are the pending requests
    and the settled promises. *)
Record Accounted (st : State) : Prop := {
  acc_count : next st = (size (promises st) + length (requests st))%nat;
  acc_named :
    forall h, (h < next st)%nat ->
              h ∈ requests st \/ is_Some (promises st !! h);
}.

End TokenTrace.

(** ** Properties *)

Module PhoneProps.
Import JsString Phone.

Lemma remove_class_filter cls s :
  remove_class cls s =
  string_of_list_ascii
    (List.filter (fun c => negb (cls c)) (list_ascii_of_string s)).
Proof.
  induction s as [|c s IH]; simpl; [reflexivity|].
  destruct (cls c); simpl; rewrite IH; reflexivity.
Qed.

Lemma strip_spec_eq s : strip_spec s = remove_class strip_class s.
Proof.
  rewrite remove_class_filter. unfold strip_spec, strip_class.
  f_equal. apply List.filter_ext. intros c.
  rewrite !negb_orb. reflexivity.
Qed.

Lemma remove_class_clean cls s :
  all_chars (fun c => negb (cls c)) (remove_class cls s) = true.
Proof.
  induction s as [|c s IH]; simpl; [reflexivity|].
  destruct (cls c) eqn:E; simpl; [exact IH|].
  rewrite E, IH. reflexivity.
Qed.

Lemma remove_class_id cls s :
  all_chars (fun c => negb (cls c)) s = true -> remove_class cls s = s.
Proof.
  induction s as [|c s IH]; simpl; [reflexivity|].
  intros H. apply andb_prop in H as [Hc Hs].
  apply negb_true_iff in Hc. rewrite Hc, (IH Hs). reflexivity.
Qed.

Lemma startsWith_char c0 c rest :
  startsWith (String c rest) (String c0 EmptyString) = Ascii.eqb c c0.
Proof.
  unfold startsWith. simpl.
  destruct (ascii_dec c0 c) as [->|Hne].
  - rewrite Ascii.eqb_refl. destruct rest; reflexivity.
  - symmetry. apply Ascii.eqb_neq. congruence.
Qed.

Lemma formatPhoneNumber_spec phone :
  formatPhoneNumber phone = normalize_spec phone.
Proof.
  unfold formatPhoneNumber, normalize_spec. rewrite strip_spec_eq.
  destruct (remove_class strip_class phone) as [|c rest] eqn:E.
  - reflexivity.
  - rewrite startsWith_char. unfold startsWith. cbn [slice1].
    destruct (Ascii.eqb c "0");
      match goal with |- context [String.prefix ?p ?s] =>
        destruct (String.prefix p s); reflexivity end.
Qed.

Lemma startsWith_254 s : startsWith ("254" ++ s) "254" = true.
Proof. unfold startsWith. simpl. destruct s; reflexivity. Qed.

(** The result always carries the country code. *)
Lemma formatPhoneNumber_prefix phone :
  startsWith (formatPhoneNumber phone) "254" = true.
Proof.
  unfold formatPhoneNumber.
  destruct (startsWith (remove_class strip_class phone) "0");
    match goal with |- context [negb (startsWith ?s "254")] =>
      destruct (startsWith s "254") eqn:E; cbn [negb];
      [exact E | apply startsWith_254] end.
Qed.

Lemma all_chars_app p s t :
  all_chars p (s ++ t) = all_chars p s && all_chars p t.
Proof.
  induction s as [|c s IH]; simpl; [reflexivity|].
  rewrite IH, andb_assoc. reflexivity.
Qed.

Lemma all_chars_slice1 p s : all_chars p s = true -> all_chars p (slice1 s) = true.
Proof. destruct s; simpl; [auto|]. intros H. apply andb_prop in H. tauto. Qed.

(** The result holds no white space, dash or plus sign. *)
Lemma formatPhoneNumber_clean phone :
  all_chars (fun c => negb (strip_class c)) (formatPhoneNumber phone) = true.
Proof.
  unfold formatPhoneNumber.
  pose proof (remove_class_clean strip_class phone) as Hc.
  set (cleaned := remove_class strip_class phone) in *.
  assert (H1 : all_chars (fun c => negb (strip_class c))
                 (if startsWith cleaned "0" then "254" ++ slice1 cleaned
                  else cleaned) = true).
  { destruct (startsWith cleaned "0"); [|exact Hc].
    rewrite all_chars_app, (all_chars_slice1 _ _ Hc). reflexivity. }
  match goal with |- context [negb (startsWith ?s "254")] =>
    destruct (startsWith s "254"); cbn [negb]; [exact H1|] end.
  rewrite all_chars_app, H1. reflexivity.
Qed.

Lemma formatPhoneNumber_fixed s :
  all_chars (fun c => negb (strip_class c)) s = true ->
  startsWith s "254" = true ->
  formatPhoneNumber s = s.
Proof.
  intros Hc Hp. unfold formatPhoneNumber.
  rewrite (remove_class_id _ _ Hc).
  destruct s as [|c rest]; [discriminate Hp|].
  rewrite startsWith_char.
  assert (Hc2 : Ascii.eqb c "0" = false).
  { unfold startsWith in Hp. cbn [String.prefix] in Hp.
    destruct (ascii_dec "2" c) as [<-|]; [reflexivity|discriminate Hp]. }
  rewrite Hc2, Hp. reflexivity.
Qed.

(** C9: [formatPhoneNumber] is the reference rule of the specification
    (strip white space, dashes and plus signs; replace a leading "0" by
    "254"; prepend "254" when the prefix is still missing); the three
    sample numbers normalise to "254746221954"; and normalising a
    normalised number changes nothing. *)
Theorem formatPhoneNumber_reference_rule :
  (forall phone, formatPhoneNumber phone = normalize_spec phone) /\
  formatPhoneNumber "0746221954" = "254746221954" /\
  formatPhoneNumber "+254746221954" = "254746221954" /\
  formatPhoneNumber "746221954" = "254746221954" /\
  (forall phone,
      formatPhoneNumber (formatPhoneNumber phone) = formatPhoneNumber phone).
Proof.
  split; [exact formatPhoneNumber_spec|].
  repeat split; try reflexivity.
  intros phone. apply formatPhoneNumber_fixed.
  - apply formatPhoneNumber_clean.
  - apply formatPhoneNumber_prefix.
Qed.

End PhoneProps.

Module TokenCacheProps.
Import TokenCache.
Local Open Scope list_scope.

Lemma inv_init : Inv init.
Proof.
  split; simpl; try done.
  - intros h H. by apply elem_of_nil in H.
  - intros h [x H]. by rewrite lookup_empty in H.
  - intros c h H. by apply elem_of_nil in H.
Qed.

Lemma truthy_Some v : truthy v = true -> exists s, v = Some s /\ s <> "".
Proof.
  destruct v as [s|]; simpl; [|done].
  intros H. exists s. split; [done|].
  apply negb_true_iff, String.eqb_neq in H. done.
Qed.

Lemma truthy_of_nonempty s : s <> "" -> truthy (Some s) = true.
Proof. intros H. simpl. apply negb_true_iff, String.eqb_neq. done. Qed.

Lemma inv_generateAccessToken c now st :
  Inv st -> Inv (generateAccessToken c now st).
Proof.
  intros [Hr Hf Hs Ht Hret]. unfold generateAccessToken.
  destruct (cached (cache st) now).
  - split; simpl; try done.
    intros c' h H. apply elem_of_app in H as [H|H]; [eauto|].
    apply list_elem_of_singleton in H. done.
  - destruct (inFlight (cache st)) as [h0|] eqn:E.
    + split; simpl; try done; [by rewrite E|].
      intros c' h H. apply elem_of_app in H as [H|H]; [eauto|].
      apply list_elem_of_singleton in H. inversion H; subst.
      apply Hf. rewrite Hr. by apply list_elem_of_singleton.
    + split; simpl.
      * by rewrite Hr.
      * intros h H. apply elem_of_app in H as [H|H].
        -- apply Hf in H. lia.
        -- apply list_elem_of_singleton in H. lia.
      * intros h H. destruct (Hs h H) as [H1 H2]. split; [lia|].
        rewrite Hr. simpl. intros H3. apply list_elem_of_singleton in H3. lia.
      * done.
      * intros c' h H. apply elem_of_app in H as [H|H].
        -- apply Hret in H. lia.
        -- apply list_elem_of_singleton in H. inversion H; subst. lia.
Qed.

Lemma filter_out_singleton h :
  List.filter (fun h' => negb (Nat.eqb h' h)) [h] = [].
Proof. simpl. by rewrite Nat.eqb_refl. Qed.

(** In a reachable state, answering the request named by [inFlight] leaves
    no request and clears the marker. *)
Lemma settle_reachable h r now st :
  Inv st -> h ∈ requests st ->
  inFlight (cache st) = Some h /\
  requests (settle h r now st) = [] /\
  inFlight (cache (settle h r now st)) = None /\
  promises (settle h r now st) !! h =
    Some (match granted r with
          | Some (tok, _) => Resolved tok
          | None => Rejected acquisitionError
          end) /\
  (forall h', h' <> h ->
     promises (settle h r now st) !! h' = promises st !! h') /\
  returned (settle h r now st) = returned st /\
  next (settle h r now st) = next st.
Proof.
  intros [Hr Hf Hs Ht Hret] Hin.
  assert (E : inFlight (cache st) = Some h).
  { rewrite Hr in Hin. destruct (inFlight (cache st)) as [h0|].
    - apply list_elem_of_singleton in Hin. by subst.
    - by apply elem_of_nil in Hin. }
  split; [done|]. unfold settle. rewrite bool_decide_eq_true_2 by done.
  rewrite Hr, E, filter_out_singleton.
  destruct (granted r) as [[tok e]|]; simpl;
    (repeat split; try done;
     [ by rewrite lookup_insert_eq
     | intros h' Hne; by rewrite lookup_insert_ne ]).
Qed.

Lemma granted_nonempty r tok e : granted r = Some (tok, e) -> tok <> "".
Proof.
  destruct r as [|[d|]]; simpl; try done.
  destruct (truthy (access_token d)) eqn:E; [|done].
  apply truthy_Some in E as (s & -> & Hs). simpl. by intros [= <- _].
Qed.

Lemma inv_settle h r now st : Inv st -> Inv (settle h r now st).
Proof.
  intros HI. destruct (decide (h ∈ requests st)) as [Hin|Hnin].
  - destruct (settle_reachable h r now st HI Hin)
      as (E & Hreq & Hfl & Hp & Hother & Hret & Hnext).
    destruct HI as [Hr Hf Hs Ht Hrt].
    split.
    + by rewrite Hreq, Hfl.
    + rewrite Hreq. intros h' H. by apply elem_of_nil in H.
    + rewrite Hreq, Hnext. intros h' H. split; [|apply not_elem_of_nil].
      destruct (decide (h' = h)) as [->|Hne]; [by apply Hf|].
      rewrite Hother in H by done. by apply Hs.
    + unfold settle. rewrite bool_decide_eq_true_2 by done.
      destruct (granted r) as [[tok e]|] eqn:G; simpl; [|done].
      intros t [= <-]. by eapply granted_nonempty.
    + rewrite Hret, Hnext. done.
  - unfold settle. by rewrite bool_decide_eq_false_2.
Qed.

Lemma inv_step st e : Inv st -> Inv (step st e).
Proof.
  destruct e; simpl; auto using inv_generateAccessToken, inv_settle.
Qed.

Lemma run_snoc evs e : run (evs ++ [e]) = step (run evs) e.
Proof. unfold run. by rewrite fold_left_app. Qed.

Lemma inv_run evs : Inv (run evs).
Proof.
  induction evs as [|e evs IH] using rev_ind; [apply inv_init|].
  rewrite run_snoc. by apply inv_step.
Qed.

Lemma run_app evs evs' : run (evs ++ evs') = fold_left step evs' (run evs).
Proof. unfold run. by rewrite fold_left_app. Qed.

(** A promise settles once: its outcome is never replaced. *)
Lemma settled_step st e h o :
  Inv st -> promises st !! h = Some o -> promises (step st e) !! h = Some o.
Proof.
  intros HI Hp. destruct e as [c now|h' r now]; simpl.
  - unfold generateAccessToken.
    destruct (cached _ _); [done|]. by destruct (inFlight _).
  - destruct (decide (h' ∈ requests st)) as [Hin|Hnin].
    + destruct (settle_reachable h' r now st HI Hin) as (_&_&_&_&Ho&_).
      rewrite Ho; [done|]. intros ->.
      destruct (inv_settled st HI h') as [_ Hn]; [by eexists|]. done.
    + unfold settle. by rewrite bool_decide_eq_false_2.
Qed.

Lemma settled_forever evs' : forall st h o,
  Inv st -> promises st !! h = Some o ->
  promises (fold_left step evs' st) !! h = Some o.
Proof.
  induction evs' as [|e evs' IH]; intros st h o HI Hp; simpl; [done|].
  apply IH; [by apply inv_step | by apply settled_step].
Qed.

Lemma cached_false_cases ch now :
  cached ch now = false <-> truthy (token ch) = false \/ expiresAt ch <= now.
Proof.
  unfold cached. rewrite andb_false_iff, Z.ltb_ge. tauto.
Qed.

(** A call made while a request is pending and no valid token is cached
    is handed the pending promise and issues nothing. *)
Lemma generateAccessToken_waits c now st h :
  cached (cache st) now = false -> inFlight (cache st) = Some h ->
  generateAccessToken c now st =
    {| cache := cache st; requests := requests st; promises := promises st;
       returned := returned st ++ [(c, Pending h)]; next := next st |}.
Proof. intros Hc Hf. unfold generateAccessToken. by rewrite Hc, Hf. Qed.

(** C1: single flight.  In every state an execution can reach from the
    empty cache: (1) at most one provider authentication request awaits
    its reply; (2) a call made while no valid token is cached and a request
    is in flight is handed that request's promise, and issues no request;
    (3) while the in-flight marker is set no step adds a provider request;
    (4) a settled promise keeps its outcome, so every caller handed the
    promise receives the same token or the same error. *)
Theorem single_flight (evs : list Event) :
  let st := run evs in
  (length (requests st) <= 1)%nat /\
  (forall c now h,
      cached (cache st) now = false -> inFlight (cache st) = Some h ->
      requests st = [h] /\
      requests (generateAccessToken c now st) = [h] /\
      returned (generateAccessToken c now st) =
        returned st ++ [(c, Pending h)]) /\
  (forall e h,
      inFlight (cache st) = Some h ->
      forall h', h' ∈ requests (step st e) -> h' ∈ requests st) /\
  (forall h o evs' c,
      promises st !! h = Some o ->
      (c, Pending h) ∈ returned (run (evs ++ evs')) ->
      received (run (evs ++ evs')) (Pending h) = Some o).
Proof.
  intros st. pose proof (inv_run evs) as HI. fold st in HI.
  split; [|split; [|split]].
  - rewrite (inv_requests st HI). destruct (inFlight (cache st)); simpl; lia.
  - intros c now h Hc Hf.
    rewrite (generateAccessToken_waits c now st h Hc Hf). simpl.
    rewrite (inv_requests st HI), Hf. done.
  - intros e h Hf h' Hin. destruct e as [c now|h0 r now]; simpl in Hin.
    + unfold generateAccessToken in Hin.
      destruct (cached _ _); [done|]. by rewrite Hf in Hin.
    + destruct (decide (h0 ∈ requests st)) as [Hin0|Hnin].
      * destruct (settle_reachable h0 r now st HI Hin0) as (_&Hreq&_).
        rewrite Hreq in Hin. by apply elem_of_nil in Hin.
      * unfold settle in Hin. by rewrite bool_decide_eq_false_2 in Hin.
  - intros h o evs' c Hp _. simpl. rewrite run_app.
    by apply settled_forever.
Qed.

Lemma single_flight_witness :
  requests (generateAccessToken 3 7 (run [Call 1 0; Call 2 5])) = [O] /\
  received (run ([Call 1 0; Call 2 5; Reply 0 AuthRejected 9] ++ [Call 4 11]))
           (Pending 0) = Some (Rejected acquisitionError).
Proof.
  split.
  - apply (single_flight [Call 1 0; Call 2 5]); reflexivity.
  - apply (single_flight [Call 1 0; Call 2 5; Reply 0 AuthRejected 9]) with (c := 2%nat).
    + reflexivity.
    + simpl. apply list_elem_of_In. simpl. tauto.
Defined.

(** C2: a call made while a token is cached and [now < expiresAt] is
    handed that token and changes nothing else: no provider request is
    issued.  A call made while no token is cached, or [expiresAt <= now],
    and nothing is in flight, issues exactly one provider request. *)
Theorem cached_token_or_one_acquisition (evs : list Event) (c : Caller) (now : Z) :
  let st := run evs in
  let st' := generateAccessToken c now st in
  (forall tok,
      token (cache st) = Some tok -> now < expiresAt (cache st) ->
      returned st' = returned st ++ [(c, Value tok)] /\
      requests st' = requests st /\ cache st' = cache st /\
      promises st' = promises st /\ next st' = next st) /\
  (token (cache st) = None \/ expiresAt (cache st) <= now ->
   inFlight (cache st) = None ->
   requests st = [] /\
   requests st' = [next st] /\
   inFlight (cache st') = Some (next st) /\
   returned st' = returned st ++ [(c, Pending (next st))]).
Proof.
  intros st st'. pose proof (inv_run evs) as HI. fold st in HI.
  subst st'. unfold generateAccessToken. split.
  - intros tok Ht Hnow.
    assert (Hc : cached (cache st) now = true).
    { unfold cached. rewrite Ht, truthy_of_nonempty by by eapply inv_token.
      by apply Z.ltb_lt. }
    rewrite Hc, Ht. done.
  - intros Hno Hf.
    assert (Hc : cached (cache st) now = false).
    { apply cached_false_cases. destruct Hno as [->|]; [by left|by right]. }
    rewrite Hc, Hf. simpl. rewrite (inv_requests st HI), Hf. done.
Qed.

Lemma cached_token_or_one_acquisition_witness :
  returned (generateAccessToken 2 1000
              (run [Call 1 0;
                    Reply 0 (AuthResponse (Some {| access_token := Some "tok";
                                                    expires_in := Some 3599 |})) 10]))
  = [(1%nat, Pending 0); (2%nat, Value "tok")] /\
  requests (generateAccessToken 1 0 (run [])) = [O].
Proof.
  split.
  - apply (cached_token_or_one_acquisition
             [Call 1 0;
              Reply 0 (AuthResponse (Some {| access_token := Some "tok";
                                             expires_in := Some 3599 |})) 10]
             2%nat 1000 ); [reflexivity | vm_compute; reflexivity].
  - apply (cached_token_or_one_acquisition [] 1%nat 0);
      [left; reflexivity | reflexivity].
Defined.

(** C3: when the provider request of the pending acquisition is answered,
    the in-flight marker is cleared whatever the answer, and the next call
    is never handed the old promise.  When the acquisition fails (the
    request is rejected, or the answer carries no token) the cache is
    back in its empty state (token null, expiry 0), every caller handed
    the promise receives the acquisition error, and the next call issues a
    fresh provider request. *)
Theorem acquisition_failure_resets (evs : list Event) (h : Handle)
    (r : AuthReply) (now : Z) :
  let st := run evs in
  let st' := settle h r now st in
  h ∈ requests st ->
  inFlight (cache st') = None /\
  requests st' = [] /\
  (forall c now' x,
      returned (generateAccessToken c now' st') = returned st' ++ [(c, x)] ->
      x <> Pending h) /\
  (granted r = None ->
   cache st' = accessTokenCache /\
   (forall c, (c, Pending h) ∈ returned st' ->
              received st' (Pending h) = Some (Rejected acquisitionError)) /\
   (forall c now',
       requests (generateAccessToken c now' st') = [next st'] /\
       returned (generateAccessToken c now' st') =
         returned st' ++ [(c, Pending (next st'))])).
Proof.
  intros st st' Hin. pose proof (inv_run evs) as HI. fold st in HI.
  destruct (settle_reachable h r now st HI Hin)
    as (E & Hreq & Hfl & Hp & Hother & Hret & Hnext).
  fold st' in Hreq, Hfl, Hp, Hother, Hret, Hnext.
  assert (HI' : Inv st') by by apply inv_settle.
  split; [exact Hfl|]. split; [exact Hreq|]. split.
  - intros c now' x Hx ->.
    unfold generateAccessToken in Hx. rewrite Hfl in Hx.
    destruct (cached _ _); simpl in Hx; apply app_inv_head in Hx;
      inversion Hx as [Hh].
    rewrite Hnext in Hh. apply (inv_fresh st HI) in Hin. lia.
  - intros Hfailed.
    assert (Hc : cache st' = accessTokenCache).
    { subst st'. unfold settle. rewrite bool_decide_eq_true_2 by done.
      by rewrite Hfailed. }
    split; [exact Hc|]. split.
    + intros c _. simpl. by rewrite Hp, Hfailed.
    + intros c now'. unfold generateAccessToken. rewrite Hc. simpl.
      by rewrite Hreq.
Qed.

Lemma acquisition_failure_resets_witness :
  cache (settle 0 AuthRejected 9 (run [Call 1 0; Call 2 5])) = accessTokenCache /\
  received (settle 0 AuthRejected 9 (run [Call 1 0; Call 2 5])) (Pending 0)
    = Some (Rejected acquisitionError).
Proof.
  assert (Hin : O ∈ requests (run [Call 1 0; Call 2 5])).
  { apply list_elem_of_In. simpl. tauto. }
  pose proof (acquisition_failure_resets [Call 1 0; Call 2 5] O AuthRejected 9 Hin)
    as (_ & _ & _ & Hfail).
  destruct (Hfail eq_refl) as (Hc & Hw & _).
  split; [exact Hc|]. apply (Hw 2%nat).
  apply list_elem_of_In. simpl. tauto.
Defined.

End TokenCacheProps.

Module PasswordProps.
Import JsString Js Mpesa Sample.

(** The payload of every charge carries the literal password and
    timestamp, whatever the configuration and the clock. *)
Lemma stkPushPayload_literal env req password timestamp phone :
  prop (StkPush.stkPushPayload env req password timestamp phone) "Password"
    = Ok (JStr literal_password) /\
  prop (StkPush.stkPushPayload env req password timestamp phone) "Timestamp"
    = Ok (JStr "20210628092408").
Proof. split; reflexivity. Qed.

Lemma queryPayload_literal env req password timestamp :
  prop (QueryStk.queryPayload env req password timestamp) "Password"
    = Ok (JStr literal_password) /\
  prop (QueryStk.queryPayload env req password timestamp) "Timestamp"
    = Ok (JStr "20210628092408").
Proof. split; reflexivity. Qed.

(** *** What [generatePassword] computes *)

Lemma remove_class_app cls s t :
  remove_class cls (s ++ t) = remove_class cls s ++ remove_class cls t.
Proof.
  induction s as [|c s IH]; simpl; [reflexivity|].
  destruct (cls c); simpl; by rewrite IH.
Qed.

Lemma digits_kept s :
  all_chars is_digit s = true -> remove_class non_digit s = s.
Proof.
  induction s as [|c s IH]; simpl; [reflexivity|].
  intros H. apply andb_prop in H as [Hc Hs].
  unfold non_digit at 1. rewrite Hc. simpl. by rewrite IH.
Qed.

Lemma digit_is_digit n : all_chars is_digit (digit n) = true.
Proof.
  unfold digit. cbn [all_chars]. rewrite andb_true_r. unfold is_digit.
  assert (H : (n mod 10 < 10)%nat) by (apply Nat.mod_upper_bound; lia).
  cbv zeta. rewrite nat_ascii_embedding by lia.
  apply andb_true_intro. split; apply Nat.leb_le; lia.
Qed.

Lemma all_digits_app s t :
  all_chars is_digit s = true -> all_chars is_digit t = true ->
  all_chars is_digit (s ++ t) = true.
Proof.
  induction s as [|c s IH]; simpl; [auto|].
  intros H Ht. apply andb_prop in H as [Hc Hs]. by rewrite Hc, IH.
Qed.

Lemma pad_digits w : forall n, all_chars is_digit (pad w n) = true.
Proof.
  induction w as [|w IH]; intros n; simpl; [reflexivity|].
  apply all_digits_app; [apply IH|apply digit_is_digit].
Qed.

Lemma string_length_app s t :
  String.length (s ++ t) = (String.length s + String.length t)%nat.
Proof. induction s as [|c s IH]; simpl; [reflexivity|]. by rewrite IH. Qed.

Lemma pad_length w : forall n, String.length (pad w n) = w.
Proof.
  induction w as [|w IH]; intros n; simpl; [reflexivity|].
  rewrite string_length_app, IH. simpl. lia.
Qed.

Lemma substring_whole_prefix s t :
  String.substring 0 (String.length s) (s ++ t) = s.
Proof.
  induction s as [|c s IH]; simpl.
  - by destruct t.
  - by rewrite IH.
Qed.

Lemma drop_last_app s t : drop_last (String.length t) (s ++ t) = s.
Proof.
  unfold drop_last. rewrite string_length_app.
  replace (String.length s + String.length t - String.length t)%nat
    with (String.length s) by lia.
  apply substring_whole_prefix.
Qed.

Lemma string_app_assoc (s t u : string) : (s ++ t) ++ u = s ++ t ++ u.
Proof.
  induction s as [|c s IH]; [reflexivity|].
  change (String c ((s ++ t) ++ u) = String c (s ++ t ++ u)).
  f_equal. exact IH.
Qed.

Lemma string_app_nil (s : string) : s ++ "" = s.
Proof.
  induction s as [|c s IH]; [reflexivity|].
  change (String c (s ++ "") = String c s). f_equal. exact IH.
Qed.

Lemma keep_pad w n t :
  remove_class non_digit (pad w n ++ t) = pad w n ++ remove_class non_digit t.
Proof. by rewrite remove_class_app, digits_kept by apply pad_digits. Qed.

Lemma drop_separator c t :
  non_digit c = true ->
  remove_class non_digit (String c EmptyString ++ t) = remove_class non_digit t.
Proof. intros H. simpl. by rewrite H. Qed.

(** The digits of the year in the timestamp. *)
Lemma iso_year_digits y t :
  remove_class non_digit (iso_year y ++ t)
  = (if (Z.of_nat y <=? 9999) then pad 4 y else pad 6 y)
      ++ remove_class non_digit t.
Proof.
  unfold iso_year. destruct (Z.of_nat y <=? 9999); [apply keep_pad|].
  rewrite string_app_assoc.
  rewrite drop_separator by reflexivity. apply keep_pad.
Qed.

(** The timestamp is YYYYMMDDHHmmss, the year taking six digits beyond
    9999, and the password the base64 of short code, pass key and
    timestamp. *)
Lemma generatePassword_fresh env now :
  let timestamp :=
    (if (Z.of_nat (year now) <=? 9999) then pad 4 (year now) else pad 6 (year now))
      ++ pad 2 (month now) ++ pad 2 (day now)
      ++ pad 2 (hours now) ++ pad 2 (minutes now) ++ pad 2 (seconds now) in
  generatePassword env now =
    (base64 (utf8 (interpolate (MPESA_SHORTCODE env)
                     ++ interpolate (MPESA_PASSKEY env) ++ timestamp)),
     timestamp) /\
  String.length timestamp
    = (if (Z.of_nat (year now) <=? 9999) then 14%nat else 16%nat) /\
  all_chars is_digit timestamp = true.
Proof.
  intros timestamp.
  assert (Hts : drop_last 3 (remove_class non_digit (toISOString now))
                = timestamp).
  { unfold toISOString.
    rewrite iso_year_digits. rewrite drop_separator by reflexivity.
    do 5 (rewrite keep_pad; rewrite drop_separator by reflexivity).
    rewrite keep_pad.
    change (remove_class non_digit "Z") with "".
    subst timestamp.
    rewrite <- (drop_last_app
                  ((if (Z.of_nat (year now) <=? 9999)
                    then pad 4 (year now) else pad 6 (year now))
                     ++ pad 2 (month now) ++ pad 2 (day now)
                     ++ pad 2 (hours now) ++ pad 2 (minutes now)
                     ++ pad 2 (seconds now))
                  (pad 3 (milliseconds now))).
    rewrite pad_length. f_equal.
    all: rewrite ?string_app_nil, ?string_app_assoc; reflexivity. }
  split; [|split].
  - unfold generatePassword. by rewrite Hts.
  - subst timestamp. rewrite !string_length_app, !pad_length.
    destruct (Z.of_nat (year now) <=? 9999); rewrite pad_length; reflexivity.
  - subst timestamp.
    apply all_digits_app; [destruct (Z.of_nat (year now) <=? 9999); apply pad_digits|].
    repeat (apply all_digits_app; [apply pad_digits|]).
    apply pad_digits.
Qed.

(** The literal is the password of the sandbox short code and pass key at
    2021-06-28 09:24:08. *)
Lemma literal_password_origin :
  generatePassword sandbox june_2021 = (literal_password, "20210628092408").
Proof. vm_compute. reflexivity. Qed.

(** C4, at a charge and a status query made on 2026-11-02 at 09:24:08 UTC
    with the sandbox configuration: the fresh password is the base64 of
    short code, pass key and "20261102092408", and the payloads sent to the
    provider carry another password and the timestamp "20210628092408". *)
Theorem password_not_fresh :
  let fresh := generatePassword sandbox today in
  snd fresh = "20261102092408" /\
  fst fresh =
    base64 (utf8 ("174379"
      ++ "bfb279f9aa9bdbcf158e97dd71a467cd2e0c893059b10f78e6b72ada1ed2c919"
      ++ "20261102092408")) /\
  (exists url payload,
      fst (StkPush.handler sandbox charge today (Ok "token")
             (Ok charge_accepted))
        = [AcquireToken; ProviderPost url payload "token"] /\
      prop payload "Password" = Ok (JStr literal_password) /\
      prop payload "Timestamp" = Ok (JStr "20210628092408")) /\
  (exists url payload,
      fst (QueryStk.handler sandbox query today (Ok "token") (Ok JNull))
        = [AcquireToken; ProviderPost url payload "token"] /\
      prop payload "Password" = Ok (JStr literal_password) /\
      prop payload "Timestamp" = Ok (JStr "20210628092408")) /\
  literal_password <> fst fresh /\
  "20210628092408" <> snd fresh.
Proof.
  cbv zeta.
  split; [vm_compute; reflexivity|].
  split; [vm_compute; reflexivity|].
  split; [eexists _, _; split; [reflexivity|split; reflexivity]|].
  split; [eexists _, _; split; [reflexivity|split; reflexivity]|].
  split; apply String.eqb_neq; vm_compute; reflexivity.
Qed.

End PasswordProps.

Module CallbackProps.
Import JsString Js Mpesa Callbacks Sample.





(** Bodies on which the [try] block throws: no body, no [Result], a
    parameter list that is not an array, the store failing. *)
Example b2c_result_throws :
  b2c_result_update JUndefined today = Throw TypeError /\
  b2c_result_update (JObj [("Result", JNull)]) today = Throw TypeError /\
  b2c_result_update
    (JObj [("Result", JObj [("ResultCode", JNum 0);
                            ("ResultParameters",
                             JObj [("ResultParameter", JStr "x")])])])
    today = Throw TypeError /\
  stk_push_try (JObj [("Body", JObj [])]) = Throw TypeError.
Proof. repeat split. Qed.

(** *** Flattening the result parameters *)

Lemma collect_key_values items kvs : forall o,
  Forall2 key_value items kvs ->
  collect "Key" "Value" items o =
    Ok (fold_left (fun o kv => assign o (fst kv) (snd kv)) kvs o).
Proof.
  intros o H. revert o.
  induction H as [|item [k v] items kvs (props & -> & Hk & Hv) _ IH];
    intros o; [reflexivity|].
  cbn [collect prop bind]. simpl in Hk, Hv. rewrite Hk, Hv.
  cbn [toString fold_left fst snd]. apply IH.
Qed.

Lemma flatten_parameters v items kvs :
  parameter_list v items -> Forall2 key_value items kvs ->
  flatten "Key" "Value" v = Ok (assign_all kvs).
Proof.
  intros [->|[Hn ->]] H.
  - by apply collect_key_values.
  - inversion H; subst. by destruct v.
Qed.

(** Without a "__proto__" key the loop only defines own properties: the
    object is the map of the pairs, a later pair replacing an earlier one
    of the same key. *)
Lemma assign_plain o k v :
  k <> "__proto__" -> assign o k v = define_own o k v.
Proof.
  intros H. unfold assign.
  apply String.eqb_neq in H. by rewrite H.
Qed.

Lemma fold_assign_plain kvs : forall o,
  (forall kv, In kv kvs -> fst kv <> "__proto__") ->
  own (fold_left (fun o kv => assign o (fst kv) (snd kv)) kvs o)
    = list_to_map (rev kvs) ∪ own o /\
  proto (fold_left (fun o kv => assign o (fst kv) (snd kv)) kvs o) = proto o.
Proof.
  induction kvs as [|[k v] kvs IH]; intros o H.
  - simpl. split; [|done]. by rewrite (left_id_L ∅ (∪)).
  - cbn [fold_left fst snd].
    rewrite assign_plain by (apply (H (k, v)); by left).
    destruct (IH (define_own o k v)) as [Ho Hp].
    { intros kv Hin. apply H. by right. }
    rewrite Ho, Hp. split; [|done].
    simpl. rewrite list_to_map_app. simpl.
    rewrite insert_empty, <- (assoc_L (∪)).
    by rewrite <- insert_union_singleton_l.
Qed.

Lemma assign_all_plain kvs :
  (forall kv, In kv kvs -> fst kv <> "__proto__") ->
  own (assign_all kvs) = list_to_map (rev kvs) /\
  forall k, read (assign_all kvs) k
            = default JUndefined
                ((list_to_map (rev kvs) : gmap string JSON) !! k).
Proof.
  intros H. destruct (fold_assign_plain kvs empty_object H) as [Ho Hp].
  fold (assign_all kvs) in Ho, Hp. simpl in Ho, Hp.
  rewrite (right_id_L ∅ (∪)) in Ho. split; [done|].
  intros k. unfold read. rewrite Ho, Hp.
  by destruct (list_to_map (rev kvs) !! k).
Qed.

(** *** The store update *)

Lemma merge_cons k v fields row :
  Store.merge ((k, v) :: fields) row =
  Store.merge fields (match v with JUndefined => row | _ => <[k := v]> row end).
Proof. unfold Store.merge. simpl. by destruct v. Qed.

Lemma merge_absent fields : forall row k,
  ~ In k (List.map fst fields) -> Store.merge fields row !! k = row !! k.
Proof.
  induction fields as [|[k' v] fields IH]; intros row k H; [done|].
  rewrite merge_cons, IH by (intros Hin; apply H; by right).
  assert (k' <> k) by (intros ->; apply H; by left).
  destruct v; try done; by rewrite lookup_insert_ne.
Qed.

Lemma merge_written fields k v : forall row,
  In (k, v) fields -> NoDup (List.map fst fields) -> v <> JUndefined ->
  Store.merge fields row !! k = Some v.
Proof.
  induction fields as [|[k' v'] fields IH]; intros row Hin Hnd Hv; [done|].
  rewrite merge_cons. simpl in Hnd. apply NoDup_cons in Hnd as [Hk Hnd].
  destruct Hin as [[= -> ->]|Hin].
  - rewrite merge_absent by (by rewrite <- list_elem_of_In).
    destruct v; try done; by rewrite lookup_insert_eq.
  - by apply IH.
Qed.

Lemma update_lookup fields column value rows i row :
  rows !! i = Some row ->
  Store.update fields column value rows !! i =
    Some (if Store.matches column value row then Store.merge fields row
          else row).
Proof. intros H. unfold Store.update. by rewrite list_lookup_fmap, H. Qed.

Lemma matches_held column x row :
  row !! column = Some (JStr x) -> Store.matches column (JStr x) row = true.
Proof. intros H. unfold Store.matches. rewrite H. apply String.eqb_refl. Qed.

Lemma apply_update fields column value rows :
  Store.apply (StoreUpdate "transactions" fields column value) rows
    = Store.update fields column value rows.
Proof. reflexivity. Qed.

(** C6: for a payout-result callback whose [Result] carries a numeric
    result code, a conversation id and a list of key/value parameters:
    with code 0 the parameters are flattened into a map and the handler
    asks the store to set, on the records whose [mpesa_conversation_id] is
    the callback's conversation id, the status released, the parameter
    [TransactionID] and the result description; with another code it asks
    for the status failed, the result code and the description.  In both
    cases the matching records are changed so and the other records are
    left as they are. *)
Theorem payout_result_reconciled (body : JSON) (rprops : list (string * JSON))
    (code : Z) (x : string) (now : Date) (store : Result unit) :
  prop body "Result" = Ok (JObj rprops) ->
  own_property rprops "ResultCode" = JNum code ->
  own_property rprops "ConversationID" = JStr x ->
  let desc := own_property rprops "ResultDesc" in
  let listed :=
    optional_prop (own_property rprops "ResultParameters") "ResultParameter" in
  (code = 0 ->
   forall items kvs,
     parameter_list listed items -> Forall2 key_value items kvs ->
     let tid := read (assign_all kvs) "TransactionID" in
     let released :=
       StoreUpdate "transactions"
         [("status", JStr "released");
          ("mpesa_transaction_id", tid);
          ("b2c_result_code", JStr "0");
          ("b2c_result_description", desc);
          ("released_at", JStr (toISOString now))]
         "mpesa_conversation_id" (JStr x) in
     flatten "Key" "Value" listed = Ok (assign_all kvs) /\
     ((forall kv, In kv kvs -> fst kv <> "__proto__") ->
      own (assign_all kvs) = list_to_map (rev kvs) /\
      tid = default JUndefined
              ((list_to_map (rev kvs) : gmap string JSON) !! "TransactionID")) /\
     fst (b2c_result body now store) = [released] /\
     forall rows i row,
       rows !! i = Some row ->
       (row !! "mpesa_conversation_id" = Some (JStr x) ->
        exists row',
          Store.apply released rows !! i = Some row' /\
          row' !! "status" = Some (JStr "released") /\
          (tid <> JUndefined -> row' !! "mpesa_transaction_id" = Some tid) /\
          (desc <> JUndefined ->
           row' !! "b2c_result_description" = Some desc)) /\
       (Store.matches "mpesa_conversation_id" (JStr x) row = false ->
        Store.apply released rows !! i = Some row)) /\
  (code <> 0 ->
   let failed :=
     StoreUpdate "transactions"
       [("status", JStr "failed");
        ("b2c_result_code", JNum code);
        ("b2c_result_description", desc)]
       "mpesa_conversation_id" (JStr x) in
   fst (b2c_result body now store) = [failed] /\
   forall rows i row,
     rows !! i = Some row ->
     (row !! "mpesa_conversation_id" = Some (JStr x) ->
      exists row',
        Store.apply failed rows !! i = Some row' /\
        row' !! "status" = Some (JStr "failed") /\
        row' !! "b2c_result_code" = Some (JNum code) /\
        (desc <> JUndefined ->
         row' !! "b2c_result_description" = Some desc)) /\
     (Store.matches "mpesa_conversation_id" (JStr x) row = false ->
      Store.apply failed rows !! i = Some row)).
Proof.
  intros Hbody Hcode Hconv desc listed.
  assert (Hupd : b2c_result_update body now =
    match code with
    | 0 =>
        let! parameters := flatten "Key" "Value" listed in
        Ok (StoreUpdate "transactions"
              [("status", JStr "released");
               ("mpesa_transaction_id", read parameters "TransactionID");
               ("b2c_result_code", JStr "0");
               ("b2c_result_description", desc);
               ("released_at", JStr (toISOString now))]
              "mpesa_conversation_id" (JStr x))
    | _ =>
        Ok (StoreUpdate "transactions"
              [("status", JStr "failed");
               ("b2c_result_code", JNum code);
               ("b2c_result_description", desc)]
              "mpesa_conversation_id" (JStr x))
    end).
  { unfold b2c_result_update. rewrite Hbody. cbn [bind prop].
    rewrite Hcode, Hconv. by destruct code. }
  split.
  - intros -> items kvs Hlist Hkv tid released.
    pose proof (flatten_parameters _ _ _ Hlist Hkv) as Hflat.
    split; [exact Hflat|]. split.
    { intros Hplain. destruct (assign_all_plain kvs Hplain) as [Ho Hr].
      split; [exact Ho|apply Hr]. }
    split.
    { unfold b2c_result. rewrite Hupd, Hflat. cbn [bind].
      by destruct store. }
    intros rows i row Hrow. subst released.
    rewrite apply_update, (update_lookup _ _ _ _ _ _ Hrow). split.
    + intros Hheld. rewrite (matches_held _ _ _ Hheld).
      eexists. split; [reflexivity|].
      split; [|split].
      * apply merge_written; [by left| |done].
        repeat constructor; simpl; rewrite ?list_elem_of_In; simpl; intuition discriminate.
      * intros Ht. apply merge_written; [right; by left| |done].
        repeat constructor; simpl; rewrite ?list_elem_of_In; simpl; intuition discriminate.
      * intros Hd. apply merge_written; [do 3 right; by left| |done].
        repeat constructor; simpl; rewrite ?list_elem_of_In; simpl; intuition discriminate.
    + by intros ->.
  - intros Hne failed.
    split.
    { unfold b2c_result. rewrite Hupd. destruct code; [done| |];
        by destruct store. }
    intros rows i row Hrow. subst failed.
    rewrite apply_update, (update_lookup _ _ _ _ _ _ Hrow). split.
    + intros Hheld. rewrite (matches_held _ _ _ Hheld).
      eexists. split; [reflexivity|].
      split; [|split].
      * apply merge_written; [by left| |done].
        repeat constructor; simpl; rewrite ?list_elem_of_In; simpl; intuition discriminate.
      * apply merge_written; [right; by left| |done].
        repeat constructor; simpl; rewrite ?list_elem_of_In; simpl; intuition discriminate.
      * intros Hd. apply merge_written; [do 2 right; by left| |done].
        repeat constructor; simpl; rewrite ?list_elem_of_In; simpl; intuition discriminate.
    + by intros ->.
Qed.

Lemma payout_result_reconciled_witness :
  fst (b2c_result (payout_result 0) today (Ok tt)) =
    [StoreUpdate "transactions"
       [("status", JStr "released");
        ("mpesa_transaction_id", JStr "NLJ41HAY6Q");
        ("b2c_result_code", JStr "0");
        ("b2c_result_description",
         JStr "The service request is processed successfully.");
        ("released_at", JStr "2026-11-02T09:24:08.123Z")]
       "mpesa_conversation_id" (JStr "AG_20191219_00005797af5d7d75f652")] /\
  fst (b2c_result (payout_result 2001) today (Ok tt)) =
    [StoreUpdate "transactions"
       [("status", JStr "failed");
        ("b2c_result_code", JNum 2001);
        ("b2c_result_description",
         JStr "The service request is processed successfully.")]
       "mpesa_conversation_id" (JStr "AG_20191219_00005797af5d7d75f652")].
Proof.
  split.
  - destruct (payout_result_reconciled (payout_result 0)
                (payout_result_fields 0) 0
                "AG_20191219_00005797af5d7d75f652" today (Ok tt)
                eq_refl eq_refl eq_refl) as [Hreleased _].
    destruct (Hreleased eq_refl
                (List.map result_parameter result_parameters)
                result_parameters) as (_ & _ & Heffects & _).
    + left. reflexivity.
    + repeat constructor; eexists; repeat split.
    + exact Heffects.
  - destruct (payout_result_reconciled (payout_result 2001)
                (payout_result_fields 2001) 2001
                "AG_20191219_00005797af5d7d75f652" today (Ok tt)
                eq_refl eq_refl eq_refl) as [_ Hfailed].
    destruct (Hfailed ltac:(discriminate)) as [Heffects _].
    exact Heffects.
Defined.

End CallbackProps.

Module PayoutProps.
Import JsString Js Mpesa Sample.

(** C7, at a payout the provider acknowledges with its usual message: the
    conversation id returned to the caller is the provider's
    [ConversationID], and the value written to [mpesa_conversation_id] is
    read from [conversationID], which the acknowledgment does not have. *)
Theorem payout_conversation_id_not_stored :
  exists url payload reply,
    B2C.handler sandbox payout (Ok "token") (Ok payout_accepted) (Ok tt)
    = ([AcquireToken;
        ProviderPost url payload "token";
        StoreUpdate "transactions"
          [("status", JStr "released");
           ("mpesa_conversation_id", JUndefined)]
          "id" (JStr "tx-1")],
       json 200 reply) /\
    optional_prop (optional_prop reply "data") "conversationID"
      = JStr "AG_20191219_00005797af5d7d75f652" /\
    Store.apply
      (StoreUpdate "transactions"
         [("status", JStr "released"); ("mpesa_conversation_id", JUndefined)]
         "id" (JStr "tx-1"))
      [ {[ "id" := JStr "tx-1"; "status" := JStr "held_in_escrow" ]} ]
    = [ {[ "id" := JStr "tx-1"; "status" := JStr "released" ]} ].
Proof.
  eexists _, _, _. split; [reflexivity|]. split; [reflexivity|].
  vm_compute. reflexivity.
Qed.

(** What follows from it: the payout marks the record released without a
    conversation id, and the provider's result for that conversation, when
    it arrives, matches no record. *)
Example payout_then_result :
  let stored effects rows :=
    fold_left (fun rows e => Store.apply e rows) effects rows in
  let after_payout :=
    stored (fst (B2C.handler sandbox payout (Ok "token") (Ok payout_accepted)
                   (Ok tt)))
           transactions in
  let after_result :=
    stored (fst (Callbacks.b2c_result (payout_result 0) today (Ok tt)))
           after_payout in
  after_payout =
    [ {[ "id" := JStr "tx-1"; "status" := JStr "released" ]};
      {[ "id" := JStr "tx-2"; "status" := JStr "pending";
         "mpesa_conversation_id" := JStr "AG_other" ]} ] /\
  after_result = after_payout.
Proof. split; vm_compute; reflexivity. Qed.

(** C8, at a payout request without [transaction]: the payout request is
    sent to the provider, and the answer is status 500. *)
Theorem payout_without_transaction_is_sent (store : Result unit) :
  exists url payload,
    B2C.handler sandbox payout_without_transaction (Ok "token")
      (Ok payout_accepted) store
    = ([AcquireToken; ProviderPost url payload "token"],
       {| status := 500;
          body := Failure "Failed to initiate B2C payment"
                    (MessageOf TypeError) |}) /\
    prop payload "PartyB" = Ok (JStr "254746221954") /\
    prop payload "Amount" = Ok (JNum 100).
Proof. eexists _, _. repeat split. Qed.

End PayoutProps.

Module AmountProps.
Import JsString Js Mpesa Sample.
Local Open Scope Q_scope.

(** [Math_round q] is the integer nearest to [q], the upper one of two. *)
Lemma Math_round_nearest q :
  inject_Z (Math_round q) - (1 # 2) <= q /\
  q < inject_Z (Math_round q) + (1 # 2).
Proof.
  unfold Math_round.
  pose proof (Qfloor_le (q + (1 # 2))) as Hle.
  pose proof (Qlt_floor (q + (1 # 2))) as Hlt.
  rewrite inject_Z_plus in Hlt. change (inject_Z 1) with 1 in Hlt.
  split.
  - apply Qplus_le_l with (z := 1 # 2). ring_simplify.
    ring_simplify in Hle. exact Hle.
  - apply Qplus_lt_l with (z := 1 # 2).
    eapply Qlt_le_trans; [exact Hlt|].
    ring_simplify. apply Qle_refl.
Qed.

Lemma validated (amount : option Q) (bound : Z) :
  amount_falsy amount = false -> amount_below amount bound = false ->
  exists q, amount = Some q /\ inject_Z bound <= q.
Proof.
  destruct amount as [q|]; simpl; [|discriminate].
  intros _ H. exists q. split; [reflexivity|].
  apply negb_false_iff in H. by apply Qle_bool_iff.
Qed.

Lemma accepted_amount (q : Q) (bound : Z) :
  (0 < bound)%Z -> inject_Z bound <= q ->
  amount_falsy (Some q) = false /\ amount_below (Some q) bound = false.
Proof.
  intros Hb Hq. simpl. split.
  - destruct (Qeq_bool q 0) eqn:E; [|reflexivity].
    apply Qeq_bool_eq in E. rewrite E in Hq.
    assert (inject_Z bound <= inject_Z 0) as H by exact Hq.
    rewrite <- Zle_Qle in H. lia.
  - apply negb_false_iff. by apply Qle_bool_iff.
Qed.

Lemma stk_posts env req now tok provider url payload bearer :
  In (ProviderPost url payload bearer)
     (fst (StkPush.handler env req now tok provider)) ->
  exists q,
    StkPush.amount req = Some q /\ 1 <= q /\
    prop payload "Amount" = Ok (JNum (Math_round q)).
Proof.
  unfold StkPush.handler.
  destruct (negb (str_truthy (StkPush.phoneNumber req))); [intros []|].
  cbn [orb].
  destruct (amount_falsy (StkPush.amount req)) eqn:Ef; [intros []|].
  destruct (amount_below (StkPush.amount req) 1) eqn:Eb; [intros []|].
  destruct (validated _ _ Ef Eb) as (q & Eq & Hq).
  intros Hin. exists q. split; [exact Eq|]. split; [exact Hq|].
  destruct tok as [accessToken|e].
  - destruct (generatePassword env now) as [password timestamp].
    match type of Hin with
    | In _ (fst (match ?r with _ => _ end)) => destruct r
    end; cbn [fst In] in Hin;
      destruct Hin as [Hin|[Hin|[]]]; try discriminate Hin;
      injection Hin as _ <- _;
      unfold StkPush.stkPushPayload; rewrite Eq; reflexivity.
  - cbn [fst In] in Hin. destruct Hin as [Hin|[]]. discriminate Hin.
Qed.

Lemma b2c_posts env req tok provider store url payload bearer :
  In (ProviderPost url payload bearer)
     (fst (B2C.handler env req tok provider store)) ->
  exists q,
    B2C.amount req = Some q /\ 10 <= q /\
    prop payload "Amount" = Ok (JNum (Math_round q)).
Proof.
  unfold B2C.handler.
  destruct (negb (str_truthy (B2C.phoneNumber req))); [intros []|].
  cbn [orb].
  destruct (amount_falsy (B2C.amount req)) eqn:Ef; [intros []|].
  destruct (amount_below (B2C.amount req) 10) eqn:Eb; [intros []|].
  destruct (validated _ _ Ef Eb) as (q & Eq & Hq).
  intros Hin. exists q. split; [exact Eq|]. split; [exact Hq|].
  assert (Hsent : In (ProviderPost url payload bearer)
            [AcquireToken;
             ProviderPost (BASE_URL env ++ "/mpesa/b2c/v3/paymentrequest")%string
               (B2C.b2cPayload env req
                  (Phone.formatPhoneNumber (default ""%string (B2C.phoneNumber req))))
               (match tok with Ok t => t | Throw _ => ""%string end)]).
  { destruct tok as [accessToken|e]; [|destruct Hin as [Hin|[]]; discriminate Hin].
    destruct provider as [data|e]; [|exact Hin].
    destruct (prop data "conversationID") as [conv|e]; [|exact Hin].
    cbn [bind] in Hin.
    destruct (prop (B2C.transaction req) "id") as [id|e]; [|exact Hin].
    cbn [bind] in Hin.
    destruct store as [u|e].
    - destruct (B2C.success data); cbn [fst] in Hin;
        apply in_app_or in Hin as [Hin|Hin]; try exact Hin;
        apply in_app_or in Hin as [Hin|Hin];
        try (destruct Hin as [Hin|[]]; discriminate Hin);
        destruct (truthy (B2C.finalProjectId req));
        try (destruct Hin as [Hin|[]]; discriminate Hin); destruct Hin.
    - cbn [fst] in Hin. apply in_app_or in Hin as [Hin|Hin]; [exact Hin|].
      destruct Hin as [Hin|[]]; discriminate Hin. }
  destruct Hsent as [Hs|[Hs|[]]]; [discriminate Hs|].
  injection Hs as _ <- _.
  unfold B2C.b2cPayload. rewrite Eq. reflexivity.
Qed.

(** C10: the [Amount] of every payload sent to the provider for a charge
    or a payout is [Math.round] of the request's amount, the nearest
    integer; every amount at or above the minimum (1 for a charge, 10 for
    a payout), integer or not, passes validation and is sent rounded; 10.4
    is sent as 10. *)
Theorem amount_sent_rounded (env : Env) :
  (forall req now tok provider url payload bearer,
      In (ProviderPost url payload bearer)
         (fst (StkPush.handler env req now tok provider)) ->
      exists q, StkPush.amount req = Some q /\ 1 <= q /\
                prop payload "Amount" = Ok (JNum (Math_round q))) /\
  (forall req tok provider store url payload bearer,
      In (ProviderPost url payload bearer)
         (fst (B2C.handler env req tok provider store)) ->
      exists q, B2C.amount req = Some q /\ 10 <= q /\
                prop payload "Amount" = Ok (JNum (Math_round q))) /\
  (forall req q now token provider,
      str_truthy (StkPush.phoneNumber req) = true ->
      StkPush.amount req = Some q -> 1 <= q ->
      exists url payload,
        In (ProviderPost url payload token)
           (fst (StkPush.handler env req now (Ok token) provider)) /\
        prop payload "Amount" = Ok (JNum (Math_round q))) /\
  (forall req q token provider store,
      str_truthy (B2C.phoneNumber req) = true ->
      B2C.amount req = Some q -> 10 <= q ->
      exists url payload,
        In (ProviderPost url payload token)
           (fst (B2C.handler env req (Ok token) provider store)) /\
        prop payload "Amount" = Ok (JNum (Math_round q))) /\
  (forall q, inject_Z (Math_round q) - (1 # 2) <= q /\
             q < inject_Z (Math_round q) + (1 # 2)) /\
  Math_round (104 # 10) = 10%Z.
Proof.
  split; [intros; by eapply stk_posts|].
  split; [intros; by eapply b2c_posts|].
  split; [|split; [|split; [exact Math_round_nearest|reflexivity]]].
  - intros req q now token provider Hp Eq Hq.
    destruct (accepted_amount q 1 ltac:(lia) Hq) as [Hf Hb].
    assert (Hin : In (ProviderPost
               (BASE_URL env ++ "/mpesa/stkpush/v1/processrequest")%string
               (StkPush.stkPushPayload env req
                  (fst (generatePassword env now))
                  (snd (generatePassword env now))
                  (Phone.formatPhoneNumber
                     (default ""%string (StkPush.phoneNumber req))))
               token)
            (fst (StkPush.handler env req now (Ok token) provider))).
    { unfold StkPush.handler. rewrite Hp, Eq, Hf, Hb. cbn [negb orb].
      destruct (generatePassword env now) as [password timestamp].
      match goal with
      | |- In _ (fst (match ?r with _ => _ end)) => destruct r
      end; cbn [fst In]; right; left; reflexivity. }
    eexists _, _. split; [exact Hin|].
    destruct (stk_posts _ _ _ _ _ _ _ _ Hin) as (q' & Eq' & _ & Hr).
    rewrite Eq in Eq'. injection Eq' as <-. exact Hr.
  - intros req q token provider store Hp Eq Hq.
    destruct (accepted_amount q 10 ltac:(lia) Hq) as [Hf Hb].
    assert (Hin : In (ProviderPost
               (BASE_URL env ++ "/mpesa/b2c/v3/paymentrequest")%string
               (B2C.b2cPayload env req
                  (Phone.formatPhoneNumber
                     (default ""%string (B2C.phoneNumber req))))
               token)
            (fst (B2C.handler env req (Ok token) provider store))).
    { unfold B2C.handler. rewrite Hp, Eq, Hf, Hb. cbn [negb orb].
      destruct provider as [data|e]; [|right; left; reflexivity].
      destruct (prop data "conversationID") as [conv|e];
        [|right; left; reflexivity].
      cbn [bind].
      destruct (prop (B2C.transaction req) "id") as [id|e];
        [|right; left; reflexivity].
      cbn [bind].
      destruct store as [u|e]; [destruct (B2C.success data)|];
        cbn [fst]; apply in_or_app; left; right; left; reflexivity. }
    eexists _, _. split; [exact Hin|].
    destruct (b2c_posts _ _ _ _ _ _ _ _ Hin) as (q' & Eq' & _ & Hr).
    rewrite Eq in Eq'. injection Eq' as <-. exact Hr.
Qed.

Lemma amount_sent_rounded_witness :
  exists url payload,
    In (ProviderPost url payload "token")
       (fst (B2C.handler sandbox
               {| B2C.phoneNumber := Some "0746221954"%string;
                  B2C.transaction := JObj [("id"%string, JStr "tx-1")];
                  B2C.finalProjectId := JUndefined;
                  B2C.amount := Some (104 # 10);
                  B2C.remarks := None; B2C.occasion := None |}
               (Ok "token"%string) (Ok payout_accepted) (Ok tt))) /\
    prop payload "Amount" = Ok (JNum 10).
Proof.
  destruct (amount_sent_rounded sandbox) as (_ & _ & _ & Hb2c & _ & _).
  apply (Hb2c {| B2C.phoneNumber := Some "0746221954"%string;
                 B2C.transaction := JObj [("id"%string, JStr "tx-1")];
                 B2C.finalProjectId := JUndefined;
                 B2C.amount := Some (104 # 10);
                 B2C.remarks := None; B2C.occasion := None |}
              (104 # 10) "token"%string (Ok payout_accepted) (Ok tt)).
  - reflexivity.
  - reflexivity.
  - unfold Qle. simpl. lia.
Defined.

End AmountProps.

(** ** Further properties of the access-token cache *)

Module TokenCacheMore.
Import TokenCache TokenTrace TokenCacheProps.
Local Open Scope list_scope.

Lemma settle_promises h r now st :
  h ∈ requests st ->
  promises (settle h r now st) =
    <[h := match granted r with
           | Some (tok, _) => Resolved tok
           | None => Rejected acquisitionError
           end]> (promises st).
Proof.
  intros Hin. unfold settle. rewrite bool_decide_eq_true_2 by done.
  by destruct (granted r) as [[tok e]|].
Qed.

Lemma settle_ignored h r now st : h ∉ requests st -> settle h r now st = st.
Proof. intros Hn. unfold settle. by rewrite bool_decide_eq_false_2. Qed.

Lemma pending_not_settled st h :
  Inv st -> h ∈ requests st -> promises st !! h = None.
Proof.
  intros HI Hin. destruct (promises st !! h) eqn:E; [|done].
  destruct (inv_settled st HI h) as [_ Hn]; [by eexists|]. done.
Qed.

Lemma replies_snoc evs e :
  replies (evs ++ [e]) = (replies evs + if is_reply e then 1 else 0)%nat.
Proof.
  unfold replies. rewrite List.filter_app, List.length_app. simpl.
  by destruct (is_reply e).
Qed.

Lemma calls_snoc evs e :
  calls (evs ++ [e]) = (calls evs + if is_reply e then 0 else 1)%nat.
Proof.
  unfold calls. rewrite List.filter_app, List.length_app. simpl.
  by destruct (is_reply e).
Qed.

Lemma accounted_init : Accounted init.
Proof. split; [done|]. simpl. intros h Hh. lia. Qed.

Lemma accounted_step st e : Inv st -> Accounted st -> Accounted (step st e).
Proof.
  intros HI [Hc Hn]. destruct e as [c now|h r now]; simpl.
  - unfold generateAccessToken. destruct (cached _ _); [by split|].
    destruct (inFlight (cache st)) eqn:E; [by split|].
    split; simpl.
    + rewrite length_app. simpl. lia.
    + intros h Hh. destruct (decide (h = next st)) as [->|Hne].
      * left. apply elem_of_app. right. by apply list_elem_of_singleton.
      * destruct (Hn h) as [Hin|Hs]; [lia| |by right].
        left. apply elem_of_app. by left.
  - destruct (decide (h ∈ requests st)) as [Hin|Hnin];
      [|by rewrite settle_ignored].
    destruct (settle_reachable h r now st HI Hin)
      as (E & Hreq & _ & _ & _ & _ & Hnext).
    split.
    + rewrite Hnext, Hreq, (settle_promises _ _ _ _ Hin).
      rewrite map_size_insert_None by by apply pending_not_settled.
      rewrite Hc, (inv_requests st HI), E. simpl. lia.
    + rewrite Hnext. intros h' Hh. right.
      rewrite (settle_promises _ _ _ _ Hin).
      destruct (decide (h' = h)) as [->|Hne];
        [rewrite lookup_insert_eq; by eexists|].
      rewrite lookup_insert_ne by done.
      destruct (Hn h' Hh) as [Hin'|Hs]; [|done].
      rewrite (inv_requests st HI), E in Hin'.
      apply list_elem_of_singleton in Hin'. done.
Qed.

Lemma accounted_run evs : Accounted (run evs).
Proof.
  induction evs as [|e evs IH] using rev_ind; [apply accounted_init|].
  rewrite run_snoc. apply accounted_step; [apply inv_run|done].
Qed.

Lemma settled_bounded evs : (size (promises (run evs)) <= replies evs)%nat.
Proof.
  induction evs as [|e evs IH] using rev_ind; [done|].
  rewrite run_snoc, replies_snoc. destruct e as [c now|h r now]; simpl.
  - unfold generateAccessToken. destruct (cached _ _); simpl; [lia|].
    destruct (inFlight _); simpl; lia.
  - destruct (decide (h ∈ requests (run evs))) as [Hin|Hnin].
    + rewrite (settle_promises _ _ _ _ Hin).
      rewrite map_size_insert_None
        by (apply pending_not_settled; [apply inv_run|done]).
      lia.
    + rewrite settle_ignored by done. lia.
Qed.

Lemma issued_bounded evs : (next (run evs) <= calls evs)%nat.
Proof.
  induction evs as [|e evs IH] using rev_ind; [done|].
  rewrite run_snoc, calls_snoc. destruct e as [c now|h r now]; simpl.
  - unfold generateAccessToken. destruct (cached _ _); simpl; [lia|].
    destruct (inFlight _); simpl; lia.
  - destruct (decide (h ∈ requests (run evs))) as [Hin|Hnin].
    + destruct (settle_reachable h r now _ (inv_run evs) Hin)
        as (_ & _ & _ & _ & _ & _ & ->). lia.
    + rewrite settle_ignored by done. lia.
Qed.

(** X1: in every reachable state the provider requests issued so far
    (named 0, 1, ... in the order of issue, [next] being their number) are
    the ones still pending and the ones whose promise has settled, each
    counted once; so their number is at most the number of calls, and at
    most one more than the number of answers received. *)
Theorem requests_accounting (evs : list Event) :
  let st := run evs in
  next st = (size (promises st) + length (requests st))%nat /\
  (forall h, (h < next st)%nat <->
             h ∈ requests st \/ is_Some (promises st !! h)) /\
  (forall h, h ∈ requests st -> promises st !! h = None) /\
  (next st <= calls evs)%nat /\
  (next st <= S (replies evs))%nat.
Proof.
  intros st. pose proof (inv_run evs) as HI. fold st in HI.
  destruct (accounted_run evs) as [Hc Hn]. fold st in Hc, Hn.
  split; [exact Hc|]. split; [|split; [|split]].
  - intros h. split; [apply Hn|].
    intros [Hin|Hs]; [by apply (inv_fresh st HI)|by apply (inv_settled st HI)].
  - intros h Hin. by apply pending_not_settled.
  - apply issued_bounded.
  - pose proof (settled_bounded evs) as Hs. fold st in Hs.
    rewrite Hc, (inv_requests st HI).
    destruct (inFlight (cache st)); simpl; lia.
Qed.

Lemma requests_accounting_witness :
  next (run [Call 1 0; Call 2 5; Reply 0 AuthRejected 9; Call 3 11]) = 2%nat /\
  promises (run [Call 1 0; Call 2 5; Reply 0 AuthRejected 9; Call 3 11]) !! 1%nat
    = None.
Proof.
  destruct (requests_accounting
              [Call 1 0; Call 2 5; Reply 0 AuthRejected 9; Call 3 11])
    as (_ & _ & Hpending & _ & _).
  split; [reflexivity|]. apply Hpending.
  apply list_elem_of_In. simpl. tauto.
Defined.

(** *** A burst of calls *)

Lemma waiting_burst callers : forall st h,
  token (cache st) = None -> inFlight (cache st) = Some h ->
  fold_left step (burst callers) st =
    {| cache := cache st; requests := requests st; promises := promises st;
       returned := returned st
                     ++ List.map (fun cn => (fst cn, Pending h)) callers;
       next := next st |}.
Proof.
  induction callers as [|[c now] callers IH]; intros st h Ht Hf.
  - simpl. rewrite app_nil_r. by destruct st.
  - cbn [burst List.map fold_left step fst snd].
    assert (Hc : cached (cache st) now = false).
    { unfold cached. by rewrite Ht. }
    rewrite (generateAccessToken_waits c now st h Hc Hf).
    fold (burst callers). rewrite (IH _ h) by done. simpl.
    by rewrite <- app_assoc.
Qed.

(** X2: however many calls arrive one after the other on the empty cache
    before the provider answers, exactly one provider request is issued,
    every caller is handed the promise of that request, and when the answer
    comes every one of them receives the same outcome: the token granted,
    or the acquisition error. *)
Theorem burst_shares_one_request (callers : list (Caller * Z)) :
  callers <> [] ->
  let st := run (burst callers) in
  requests st = [O] /\
  next st = 1%nat /\
  promises st = ∅ /\
  returned st = List.map (fun cn => (fst cn, Pending 0)) callers /\
  forall r now,
    Forall (fun cr => received (settle 0 r now st) (snd cr) = Some (outcome r))
           (returned st) /\
    requests (settle 0 r now st) = [].
Proof.
  intros Hne st. destruct callers as [|[c now] callers]; [done|].
  assert (Hst : st =
    {| cache := {| token := None; expiresAt := 0; inFlight := Some O |};
       requests := [O]; promises := ∅;
       returned := (c, Pending 0) :: List.map (fun cn => (fst cn, Pending 0)) callers;
       next := 1%nat |}).
  { subst st. unfold run. cbn [burst List.map fold_left step fst snd].
    fold (burst callers).
    by rewrite (waiting_burst callers _ O). }
  rewrite Hst. cbn [requests next promises returned List.map fst].
  repeat (split; [reflexivity|]).
  intros r now'.
  assert (Hin : O ∈ requests st).
  { rewrite Hst. simpl. by apply list_elem_of_singleton. }
  destruct (settle_reachable O r now' st (inv_run _) Hin)
    as (_ & Hreq & _ & Hp & _).
  rewrite <- Hst. split; [|exact Hreq].
  apply Forall_forall. intros [c' ret] Hmem.
  assert (ret = Pending 0) as ->.
  { apply list_elem_of_In in Hmem. destruct Hmem as [[= _ <-]|Hmem]; [done|].
    apply in_map_iff in Hmem as (cn & [= _ <-] & _). done. }
  simpl. exact Hp.
Qed.

Lemma burst_shares_one_request_witness :
  requests (run (burst [(1%nat, 0); (2%nat, 3); (3%nat, 3)])) = [O] /\
  returned (run (burst [(1%nat, 0); (2%nat, 3); (3%nat, 3)]))
    = [(1%nat, Pending 0); (2%nat, Pending 0); (3%nat, Pending 0)].
Proof.
  destruct (burst_shares_one_request [(1%nat, 0); (2%nat, 3); (3%nat, 3)])
    as (Hr & _ & _ & Hret & _); [discriminate|].
  split; [exact Hr|exact Hret].
Defined.

(** *** The lifetime of a cached token *)




(** *** Where served tokens come from *)

Lemma grant_of_settle h r now tok e :
  granted r = Some (tok, e) -> grant (Reply h r now) = Some tok.
Proof. intros Hg. simpl. by rewrite Hg. Qed.

Lemma granted_run evs :
  (forall t, token (cache (run evs)) = Some t ->
             exists e, In e evs /\ grant e = Some t) /\
  (forall c t, In (c, Value t) (returned (run evs)) ->
               exists e, In e evs /\ grant e = Some t).
Proof.
  induction evs as [|e evs [IHt IHr]] using rev_ind.
  - split; [discriminate|]. intros c t [].
  - rewrite run_snoc.
    assert (Hmono : forall t, (exists e0, In e0 evs /\ grant e0 = Some t) ->
                              exists e0, In e0 (evs ++ [e]) /\ grant e0 = Some t).
    { intros t (e0 & Hin & Hg). exists e0. split; [|done].
      apply in_or_app. by left. }
    destruct e as [c now|h r now]; simpl.
    + unfold generateAccessToken.
      destruct (cached (cache (run evs)) now) eqn:Hc.
      * split; simpl; [intros t Ht; by apply Hmono, IHt|].
        intros c' t Hin. apply in_app_or in Hin as [Hin|[[= _ <-]|[]]].
        -- by apply Hmono, (IHr c').
        -- apply Hmono, IHt.
           unfold cached in Hc. apply andb_prop in Hc as [Hc _].
           by apply truthy_Some in Hc as (s & -> & _).
      * destruct (inFlight (cache (run evs))); split; simpl;
          try (intros t Ht; by apply Hmono, IHt);
          intros c' t Hin; apply in_app_or in Hin as [Hin|[[=]|[]]];
          by apply Hmono, (IHr c').
    + destruct (decide (h ∈ requests (run evs))) as [Hin|Hnin].
      * destruct (settle_reachable h r now _ (inv_run evs) Hin)
          as (_ & _ & _ & _ & _ & Hret & _).
        rewrite Hret. split; [|intros c' t Ht; by apply Hmono, (IHr c')].
        unfold settle. rewrite bool_decide_eq_true_2 by done.
        destruct (granted r) as [[tok e]|] eqn:Hg; simpl; [|discriminate].
        intros t [= <-]. exists (Reply h r now). split.
        -- apply in_or_app. right. by left.
        -- by eapply grant_of_settle.
      * rewrite settle_ignored by done.
        split; [intros t Ht; by apply Hmono, IHt|].
        intros c' t Ht. by apply Hmono, (IHr c').
Qed.

(** X4: the cache never serves a token the provider did not grant: every
    token handed to a caller from the cache, and the token cached in any
    reachable state, is the [access_token] of an answer received earlier in
    the execution. *)
Theorem served_tokens_were_granted (evs : list Event) :
  (forall c tok,
      In (c, Value tok) (returned (run evs)) ->
      exists h r now e,
        In (Reply h r now) evs /\ granted r = Some (tok, e)) /\
  (forall tok,
      token (cache (run evs)) = Some tok ->
      exists h r now e,
        In (Reply h r now) evs /\ granted r = Some (tok, e)).
Proof.
  destruct (granted_run evs) as [Ht Hr].
  assert (Hshape : forall t, (exists e, In e evs /\ grant e = Some t) ->
            exists h r now e, In (Reply h r now) evs /\ granted r = Some (t, e)).
  { intros t ([c now|h r now] & Hin & Hg); [discriminate|].
    simpl in Hg. destruct (granted r) as [[tok e]|] eqn:E; [|discriminate].
    injection Hg as ->. by exists h, r, now, e. }
  split.
  - intros c tok Hin. by apply Hshape, (Hr c).
  - intros tok Htok. by apply Hshape, Ht.
Qed.

Lemma served_tokens_were_granted_witness :
  exists h r now e,
    In (Reply h r now)
       [Call 1 0;
        Reply 0 (AuthResponse (Some {| access_token := Some "tok";
                                        expires_in := Some 3599 |})) 10;
        Call 2 1000] /\
    granted r = Some ("tok", e).
Proof.
  apply (served_tokens_were_granted
           [Call 1 0;
            Reply 0 (AuthResponse (Some {| access_token := Some "tok";
                                           expires_in := Some 3599 |})) 10;
            Call 2 1000]) with (c := 2%nat).
  simpl. tauto.
Defined.

End TokenCacheMore.

(** ** Further properties of the provider callbacks *)

Module CallbackMore.
Import JsString Js Mpesa Callbacks Sample.
Local Open Scope list_scope.

(** What [b2c_result_update] asks for once [Result] is an object. *)
Lemma b2c_result_update_object body rprops now :
  prop body "Result" = Ok (JObj rprops) ->
  b2c_result_update body now =
    match own_property rprops "ResultCode" with
    | JNum 0 =>
        let! parameters :=
          flatten "Key" "Value"
            (optional_prop (own_property rprops "ResultParameters")
                           "ResultParameter") in
        Ok (StoreUpdate "transactions"
              [("status", JStr "released");
               ("mpesa_transaction_id", read parameters "TransactionID");
               ("b2c_result_code", JStr "0");
               ("b2c_result_description", own_property rprops "ResultDesc");
               ("released_at", JStr (toISOString now))]
              "mpesa_conversation_id" (own_property rprops "ConversationID"))
    | rc =>
        Ok (StoreUpdate "transactions"
              [("status", JStr "failed");
               ("b2c_result_code", rc);
               ("b2c_result_description", own_property rprops "ResultDesc")]
              "mpesa_conversation_id" (own_property rprops "ConversationID"))
    end.
Proof.
  intros Hbody. unfold b2c_result_update. rewrite Hbody. cbn [bind prop].
  destruct (own_property rprops "ResultCode") as [| |b|n|s|items|props];
    try reflexivity.
  by destruct n.
Qed.

(** X5: a payout result is treated as a success only when its [ResultCode]
    is the number 0.  For every other value of [ResultCode] (another number,
    the string "0", null, or no [ResultCode] at all) the handler asks the
    store to mark the records of the conversation failed, with that value as
    [b2c_result_code], whatever the parameters are, and acknowledges. *)
Theorem result_code_other_than_zero_fails (body : JSON)
    (rprops : list (string * JSON)) (now : Date) (store : Result unit) :
  prop body "Result" = Ok (JObj rprops) ->
  own_property rprops "ResultCode" <> JNum 0 ->
  b2c_result body now store =
    ([StoreUpdate "transactions"
        [("status", JStr "failed");
         ("b2c_result_code", own_property rprops "ResultCode");
         ("b2c_result_description", own_property rprops "ResultDesc")]
        "mpesa_conversation_id" (own_property rprops "ConversationID")],
     accepted).
Proof.
  intros Hbody Hrc. unfold b2c_result.
  rewrite (b2c_result_update_object body rprops now Hbody).
  destruct (own_property rprops "ResultCode") as [| |b|n|s|items|props];
    try (by destruct store).
  destruct n; [done| |]; by destruct store.
Qed.

Lemma result_code_other_than_zero_fails_witness :
  b2c_result
    (JObj [("Result", JObj [("ResultCode", JStr "0");
                            ("ResultDesc", JStr "done");
                            ("ConversationID", JStr "AG_1")])])
    today (Ok tt)
  = ([StoreUpdate "transactions"
        [("status", JStr "failed");
         ("b2c_result_code", JStr "0");
         ("b2c_result_description", JStr "done")]
        "mpesa_conversation_id" (JStr "AG_1")],
     accepted).
Proof.
  apply (result_code_other_than_zero_fails
           (JObj [("Result", JObj [("ResultCode", JStr "0");
                                   ("ResultDesc", JStr "done");
                                   ("ConversationID", JStr "AG_1")])])
           [("ResultCode", JStr "0"); ("ResultDesc", JStr "done");
            ("ConversationID", JStr "AG_1")]).
  - reflexivity.
  - simpl. discriminate.
Defined.

(** X6: what the callbacks never do.  The charge-result and the
    payout-timeout callbacks send nothing to the store.  The payout-result
    callback sends at most one update, always to [transactions] and always
    filtered on [mpesa_conversation_id] by the callback's [ConversationID];
    its status is released or failed, and released only when [ResultCode]
    is the number 0. *)
Theorem callback_store_writes (body : JSON) (now : Date) (store : Result unit) :
  fst (stk_push body) = [] /\
  fst (b2c_timeout body) = [] /\
  (fst (b2c_result body now store) = [] \/
   exists result fields conversation,
     fst (b2c_result body now store)
       = [StoreUpdate "transactions" fields "mpesa_conversation_id"
            conversation] /\
     prop body "Result" = Ok result /\
     prop result "ConversationID" = Ok conversation /\
     ((own_property fields "status" = JStr "released" /\
       prop result "ResultCode" = Ok (JNum 0)) \/
      (own_property fields "status" = JStr "failed" /\
       prop result "ResultCode" <> Ok (JNum 0)))).
Proof.
  split; [unfold stk_push; by destruct (stk_push_try body)|].
  split; [reflexivity|].
  unfold b2c_result.
  destruct (prop body "Result") as [result|e] eqn:Hbody;
    [|left; unfold b2c_result_update; by rewrite Hbody].
  destruct result as [| |b|n|s|items|rprops];
    try (left; unfold b2c_result_update; rewrite Hbody; reflexivity);
    try (right; unfold b2c_result_update; rewrite Hbody; cbn [bind prop];
         eexists _, _, _;
         split; [by destruct store|]; split; [reflexivity|];
         split; [reflexivity|]; right; split; [reflexivity|discriminate]).
  rewrite (b2c_result_update_object body rprops now Hbody).
  assert (Hfailed : forall rc,
    own_property rprops "ResultCode" = rc -> rc <> JNum 0 ->
    exists result fields conversation,
      (let (effects, _) :=
         match store with
         | Ok _ =>
             ([StoreUpdate "transactions"
                 [("status", JStr "failed"); ("b2c_result_code", rc);
                  ("b2c_result_description", own_property rprops "ResultDesc")]
                 "mpesa_conversation_id" (own_property rprops "ConversationID")],
              accepted)
         | Throw _ =>
             ([StoreUpdate "transactions"
                 [("status", JStr "failed"); ("b2c_result_code", rc);
                  ("b2c_result_description", own_property rprops "ResultDesc")]
                 "mpesa_conversation_id" (own_property rprops "ConversationID")],
              accepted)
         end in effects)
        = [StoreUpdate "transactions" fields "mpesa_conversation_id"
             conversation] /\
      Ok (JObj rprops) = Ok result /\
      prop result "ConversationID" = Ok conversation /\
      ((own_property fields "status" = JStr "released" /\
        prop result "ResultCode" = Ok (JNum 0)) \/
       (own_property fields "status" = JStr "failed" /\
        prop result "ResultCode" <> Ok (JNum 0)))).
  { intros rc Hrc Hne. eexists _, _, _.
    split; [by destruct store|]. split; [reflexivity|].
    split; [reflexivity|]. right. split; [reflexivity|].
    cbn [prop]. rewrite Hrc. congruence. }
  destruct (own_property rprops "ResultCode") as [| |b|n|s|items|props] eqn:Hrc;
    try (right; by apply Hfailed).
  destruct n as [|p|p]; try (right; by apply Hfailed).
  destruct (flatten "Key" "Value" _) as [parameters|e]; cbn [bind];
    [|by left].
  right. eexists _, _, _.
  split; [by destruct store|]. split; [reflexivity|].
  split; [reflexivity|]. left. split; [reflexivity|].
  cbn [prop]. by rewrite Hrc.
Qed.

(** *** Flattening, whatever the keys *)

Lemma own_after_assign o k' v k :
  k <> "__proto__" -> k' <> k ->
  own (assign o k' v) !! k = own o !! k.
Proof.
  intros Hk Hne. unfold assign.
  assert (Hd : own (define_own o k' v) !! k = own o !! k).
  { simpl. by rewrite lookup_insert_ne. }
  assert (Hs : own (set_prototype o v) !! k = own o !! k).
  { by destruct v. }
  destruct (String.eqb k' "__proto__"); [|exact Hd].
  destruct (own o !! k'); [exact Hd|].
  destruct (proto o) as [| |[| |b|n|s|items|props]];
    try exact Hs; try exact Hd.
  by destruct (has_own props k').
Qed.

Lemma own_after_assigns kvs : forall o k,
  k <> "__proto__" -> ~ In k (List.map fst kvs) ->
  own (fold_left (fun o kv => assign o (fst kv) (snd kv)) kvs o) !! k
    = own o !! k.
Proof.
  induction kvs as [|[k' v] kvs IH]; intros o k Hk Hn; [done|].
  cbn [fold_left fst snd]. rewrite IH; [|done|intros Hin; apply Hn; by right].
  apply own_after_assign; [done|]. intros ->. apply Hn. by left.
Qed.

(** X7: when the parameters are flattened, the value kept under a key is
    the one of the last parameter with that key, whatever the other
    parameters are, a "__proto__" key included: an own property is read
    before the prototype. *)
Theorem last_parameter_wins (before after : list (string * JSON))
    (k : string) (v : JSON) :
  k <> "__proto__" ->
  ~ In k (List.map fst after) ->
  read (assign_all (before ++ (k, v) :: after)) k = v /\
  own (assign_all (before ++ (k, v) :: after)) !! k = Some v.
Proof.
  intros Hk Hlast.
  assert (Hown : own (assign_all (before ++ (k, v) :: after)) !! k = Some v).
  { unfold assign_all. rewrite fold_left_app. cbn [fold_left fst snd].
    rewrite own_after_assigns by done.
    rewrite CallbackProps.assign_plain by done. simpl.
    apply lookup_insert_eq. }
  split; [|exact Hown]. unfold read. by rewrite Hown.
Qed.

Lemma last_parameter_wins_witness :
  read (assign_all
          ([("TransactionID", JStr "old");
            ("__proto__", JObj [("TransactionID", JStr "other")])]
             ++ ("TransactionID", JStr "NLJ41HAY6Q")
             :: [("TransactionAmount", JNum 10)]))
       "TransactionID"
  = JStr "NLJ41HAY6Q".
Proof.
  apply (last_parameter_wins
           [("TransactionID", JStr "old");
            ("__proto__", JObj [("TransactionID", JStr "other")])]
           [("TransactionAmount", JNum 10)]
           "TransactionID" (JStr "NLJ41HAY6Q")).
  - discriminate.
  - simpl. intros [H|[]]. discriminate H.
Defined.

(** *** Parameter lists the loop cannot read *)

Lemma prop_throws v k e : prop v k = Throw e -> e = TypeError.
Proof. destruct v; simpl; congruence. Qed.

Lemma collect_nullish name value items :
  Exists (fun item => nullish item = true) items ->
  forall o, collect name value items o = Throw TypeError.
Proof.
  induction 1 as [item items Hn|item items _ IH]; intros o.
  - cbn [collect]. by destruct item.
  - cbn [collect].
    destruct (prop item name) as [k|e1] eqn:E1; cbn [bind];
      [|by rewrite (prop_throws _ _ _ E1)].
    destruct (prop item value) as [v|e2] eqn:E2; cbn [bind];
      [|by rewrite (prop_throws _ _ _ E2)].
    apply IH.
Qed.

(** X8: a successful payout result (code 0) whose parameter list cannot be
    read, because [ResultParameter] is present but not an array (a single
    object, a string, a number) or is an array holding null, is
    acknowledged like any other and sends nothing to the store: the record
    is left as it was. *)
Theorem unreadable_parameters_write_nothing (body : JSON)
    (rprops : list (string * JSON)) (now : Date) (store : Result unit) :
  prop body "Result" = Ok (JObj rprops) ->
  own_property rprops "ResultCode" = JNum 0 ->
  let listed :=
    optional_prop (own_property rprops "ResultParameters") "ResultParameter" in
  (nullish listed = false /\ (forall items, listed <> JArr items)) \/
  (exists items,
      listed = JArr items /\
      Exists (fun item => nullish item = true) items) ->
  b2c_result body now store = ([], accepted).
Proof.
  intros Hbody Hrc listed Hbad. unfold b2c_result.
  rewrite (b2c_result_update_object body rprops now Hbody), Hrc.
  fold listed.
  assert (Hthrow : flatten "Key" "Value" listed = Throw TypeError).
  { destruct Hbad as [[Hn Hna]|(items & -> & Hex)].
    - destruct listed as [| |b|n|s|items|props]; try done.
      by destruct (Hna items).
    - by apply collect_nullish. }
  by rewrite Hthrow.
Qed.

Lemma unreadable_parameters_write_nothing_witness :
  b2c_result
    (JObj [("Result", JObj [
       ("ResultCode", JNum 0);
       ("ConversationID", JStr "AG_1");
       ("ResultParameters", JObj [
          ("ResultParameter",
           JObj [("Key", JStr "TransactionID");
                 ("Value", JStr "NLJ41HAY6Q")])])])])
    today (Ok tt)
  = ([], accepted).
Proof.
  apply (unreadable_parameters_write_nothing
           (JObj [("Result", JObj [
              ("ResultCode", JNum 0);
              ("ConversationID", JStr "AG_1");
              ("ResultParameters", JObj [
                 ("ResultParameter",
                  JObj [("Key", JStr "TransactionID");
                        ("Value", JStr "NLJ41HAY6Q")])])])])
           [("ResultCode", JNum 0);
            ("ConversationID", JStr "AG_1");
            ("ResultParameters", JObj [
               ("ResultParameter",
                JObj [("Key", JStr "TransactionID");
                      ("Value", JStr "NLJ41HAY6Q")])])]).
  - reflexivity.
  - reflexivity.
  - left. split; [reflexivity|]. intros items. simpl. discriminate.
Defined.

End CallbackMore.

(** ** Further properties of the request handlers *)

Module HandlerProps.
Import JsString Js Mpesa Effects Sample.
Local Open Scope list_scope.

Lemma missing_iff v : str_truthy v = false <-> missing v.
Proof.
  unfold missing. destruct v as [s|]; simpl.
  - rewrite negb_false_iff, String.eqb_eq. split; [intros ->; by right|].
    intros [H|H]; [discriminate|by injection H].
  - split; [by left|done].
Qed.

Lemma too_small_iff amount bound :
  (0 < bound)%Z ->
  amount_falsy amount || amount_below amount bound = true
  <-> too_small amount bound.
Proof.
  intros Hb. unfold too_small. destruct amount as [q|]; simpl.
  - split.
    + intros H. right. exists q. split; [done|].
      apply orb_true_iff in H as [H|H].
      * apply Qeq_bool_eq in H. rewrite H.
        change 0%Q with (inject_Z 0). rewrite <- Zlt_Qlt. done.
      * apply negb_true_iff in H. apply Qnot_le_lt. intros Hle.
        apply Qle_bool_iff in Hle. congruence.
    + intros [H|(q' & [= <-] & Hlt)]; [discriminate|].
      apply orb_true_iff. right. apply negb_true_iff.
      destruct (Qle_bool (inject_Z bound) q) eqn:E; [|done].
      apply Qle_bool_iff in E. by apply Qle_not_lt in E.
  - split; [by left|done].
Qed.



Lemma success_reads data conversation :
  prop data "conversationID" = Ok conversation ->
  exists reply, B2C.success data = Ok reply.
Proof. destruct data; try discriminate; intros _; by eexists. Qed.

Lemma b2c_gate env req tok provider store :
  let out := B2C.handler env req tok provider store in
  (missing (B2C.phoneNumber req) \/ too_small (B2C.amount req) 10 ->
   fst out = [] /\ status (snd out) = 400) /\
  (~ (missing (B2C.phoneNumber req) \/ too_small (B2C.amount req) 10) ->
   (exists rest, fst out = AcquireToken :: rest) /\
   (status (snd out) = 200 \/ status (snd out) = 500)).
Proof.
  intros out. subst out. unfold B2C.handler.
  rewrite <- missing_iff, <- (too_small_iff _ 10) by lia.
  destruct (str_truthy (B2C.phoneNumber req)); cbn [negb orb];
    [|split; [done|intros H; destruct H; by left]].
  destruct (amount_falsy (B2C.amount req)); cbn [orb];
    [split; [done|intros H; destruct H; by right]|].
  destruct (amount_below (B2C.amount req) 10);
    [split; [done|intros H; destruct H; by right]|].
  split; [intros [H|H]; discriminate|]. intros _.
  destruct tok as [t|e]; [|split; [by eexists|by right]].
  destruct provider as [data|e]; [|split; [by eexists|by right]].
  destruct (prop data "conversationID") as [conversation|e] eqn:Ec;
    cbn [bind]; [|split; [by eexists|by right]].
  destruct (prop (B2C.transaction req) "id") as [id|e]; cbn [bind];
    [|split; [by eexists|by right]].
  destruct store as [u|e]; [|split; [by eexists|by right]].
  destruct (success_reads data conversation Ec) as [reply ->].
  split; [by eexists|by left].
Qed.



(** *** Provider calls *)



(** The effects of a payout, case by case. *)
Lemma b2c_effects env req tok provider store :
  let out := B2C.handler env req tok provider store in
  (fst out = [] /\ status (snd out) = 400) \/
  (fst out = [AcquireToken] /\ status (snd out) = 500 /\
   exists e, tok = Throw e) \/
  exists bearer payload,
    tok = Ok bearer /\
    let sent :=
      [AcquireToken;
       ProviderPost (BASE_URL env ++ "/mpesa/b2c/v3/paymentrequest")%string
                    payload bearer] in
    ((fst out = sent /\ status (snd out) = 500) \/
     exists data conversation id,
       provider = Ok data /\
       prop data "conversationID" = Ok conversation /\
       prop (B2C.transaction req) "id" = Ok id /\
       let update :=
         StoreUpdate "transactions"
           [("status", JStr "released");
            ("mpesa_conversation_id", conversation)] "id" id in
       ((exists e, store = Throw e) /\
        fst out = sent ++ [update] /\ status (snd out) = 500 \/
        (exists u, store = Ok u) /\ status (snd out) = 200 /\
        (truthy (B2C.finalProjectId req) = true /\
         fst out
           = sent ++ [update; CompleteProject (B2C.finalProjectId req)] \/
         truthy (B2C.finalProjectId req) = false /\
         fst out = sent ++ [update]))).
Proof.
  intros out. subst out. unfold B2C.handler.
  destruct (_ || _); [by left|].
  destruct (amount_below _ _); [by left|].
  destruct tok as [t|e];
    [|right; left; split; [done|split; [done|by eexists]]].
  right. right. eexists _, _. split; [done|]. cbv zeta.
  destruct provider as [data|e]; [|by left].
  destruct (prop data "conversationID") as [conversation|e] eqn:Ec;
    cbn [bind]; [|by left].
  destruct (prop (B2C.transaction req) "id") as [id|e] eqn:Ei; cbn [bind];
    [|by left].
  right. exists data, conversation, id. repeat (split; [done|]).
  destruct store as [u|e]; [|left; split; [by eexists|done]].
  right. split; [by eexists|].
  destruct (success_reads data conversation Ec) as [reply ->].
  split; [done|].
  destruct (truthy (B2C.finalProjectId req)); [by left|by right].
Qed.






(** X11: the side effects of a payout happen in order and each one only
    after the one before succeeded.  The transaction record is written only
    after the provider accepted the request, and is filtered by the id of
    the request's [transaction]; the project is completed only when
    [finalProjectId] is truthy and the store update did not throw; the
    answer is 200 only if the record update was sent, and never when the
    store update throws, although the payout request has then been sent. *)
Theorem payout_effects_in_order (env : Env) (req : B2C.Request)
    (tok : Result string) (provider : Result JSON) (store : Result unit) :
  let out := B2C.handler env req tok provider store in
  (forall table fields column value,
      In (StoreUpdate table fields column value) (fst out) ->
      table = "transactions" /\ column = "id" /\
      prop (B2C.transaction req) "id" = Ok value /\
      own_property fields "status" = JStr "released" /\
      (exists data, provider = Ok data) /\
      exists url payload bearer rest,
        fst out = AcquireToken :: ProviderPost url payload bearer
                    :: StoreUpdate table fields column value :: rest) /\
  (forall id,
      In (CompleteProject id) (fst out) ->
      id = B2C.finalProjectId req /\ truthy id = true /\
      (exists u, store = Ok u) /\ status (snd out) = 200 /\
      exists url payload bearer update,
        fst out = [AcquireToken; ProviderPost url payload bearer; update;
                   CompleteProject id]) /\
  (status (snd out) = 200 ->
   exists fields value,
     In (StoreUpdate "transactions" fields "id" value) (fst out)) /\
  (forall e,
      store = Throw e -> status (snd out) <> 200) /\
  (forall e data conversation id bearer,
      store = Throw e -> tok = Ok bearer -> provider = Ok data ->
      prop data "conversationID" = Ok conversation ->
      prop (B2C.transaction req) "id" = Ok id ->
      ~ (missing (B2C.phoneNumber req) \/ too_small (B2C.amount req) 10) ->
      status (snd out) = 500 /\
      exists url payload, In (ProviderPost url payload bearer) (fst out)).
Proof.
  intros out.
  pose proof (b2c_effects env req tok provider store) as Hcases.
  pose proof (b2c_gate env req tok provider store) as [Hbad Hgood].
  fold out in Hcases, Hbad, Hgood. cbv zeta in Hcases.
  assert (Hstatus : status (snd out) = 200 ->
    exists bearer payload data conversation id u,
      provider = Ok data /\ store = Ok u /\
      prop (B2C.transaction req) "id" = Ok id /\
      (fst out =
         [AcquireToken;
          ProviderPost (BASE_URL env ++ "/mpesa/b2c/v3/paymentrequest")%string
                       payload bearer;
          StoreUpdate "transactions"
            [("status", JStr "released");
             ("mpesa_conversation_id", conversation)] "id" id;
          CompleteProject (B2C.finalProjectId req)]
       /\ truthy (B2C.finalProjectId req) = true \/
       fst out =
         [AcquireToken;
          ProviderPost (BASE_URL env ++ "/mpesa/b2c/v3/paymentrequest")%string
                       payload bearer;
          StoreUpdate "transactions"
            [("status", JStr "released");
             ("mpesa_conversation_id", conversation)] "id" id]
       /\ truthy (B2C.finalProjectId req) = false)).
  { intros H200.
    destruct Hcases as [[_ Hs]|[(_ & Hs & _)|(bearer & payload & Ht & H)]];
      [rewrite Hs in H200; lia|rewrite Hs in H200; lia|].
    destruct H as [[_ Hs]|(data & conversation & id & Hp & Hc & Hi & H)];
      [rewrite Hs in H200; lia|].
    destruct H as [(_ & _ & Hs)|((u & Hu) & _ & H)];
      [rewrite Hs in H200; lia|].
    exists bearer, payload, data, conversation, id, u.
    repeat (split; [done|]).
    destruct H as [[Htr H]|[Htr H]]; [left|right]; by split. }
  assert (Hall : forall e, In e (fst out) ->
    e = AcquireToken \/ (exists url p b, e = ProviderPost url p b) \/
    (exists conversation id data,
        e = StoreUpdate "transactions"
              [("status", JStr "released");
               ("mpesa_conversation_id", conversation)] "id" id /\
        provider = Ok data /\
        prop (B2C.transaction req) "id" = Ok id /\
        exists url payload bearer rest,
          fst out = AcquireToken :: ProviderPost url payload bearer
                      :: e :: rest) \/
    (e = CompleteProject (B2C.finalProjectId req) /\
     truthy (B2C.finalProjectId req) = true /\
     (exists u, store = Ok u) /\ status (snd out) = 200 /\
     exists url payload bearer update,
       fst out = [AcquireToken; ProviderPost url payload bearer; update; e])).
  { intros e Hin.
    destruct Hcases as [[H _]|[[H _]|(bearer & payload & Ht & H)]].
    - rewrite H in Hin. destruct Hin.
    - rewrite H in Hin. destruct Hin as [<-|[]]. by left.
    - destruct H as [[H _]|(data & conversation & id & Hp & Hc & Hi & H)].
      { rewrite H in Hin. destruct Hin as [<-|[<-|[]]]; [by left|].
        right. left. by eexists _, _, _. }
      destruct H as [(_ & H & _)|((u & Hu) & Hs & [[Htr H]|[Htr H]])];
        rewrite H in Hin; simpl in Hin;
        repeat (destruct Hin as [<-|Hin];
                [first [ by left
                       | right; left; by eexists _, _, _
                       | right; right; left;
                         exists conversation, id, data;
                         repeat (split; [done|]);
                         rewrite H; simpl; by eexists _, _, _, _
                       | right; right; right;
                         repeat (split; [done|]);
                         split; [by eexists|]; split; [done|];
                         rewrite H; simpl; by eexists _, _, _, _ ]|]);
        destruct Hin. }
  split; [|split; [|split; [|split]]].
  - intros table fields column value Hin.
    destruct (Hall _ Hin) as [H|[(?&?&?&H)|[H|[H _]]]]; try discriminate H.
    destruct H as (conversation & id & data & [= -> -> -> ->] & Hp & Hi & Hex).
    repeat (split; [first [done|reflexivity]|]). split; [by eexists|done].
  - intros id Hin.
    destruct (Hall _ Hin) as [H|[(?&?&?&H)|[(?&?&?&H&_)|H]]];
      try discriminate H.
    destruct H as ([= ->] & Htr & Hu & Hs & Hex). done.
  - intros H200.
    destruct (Hstatus H200)
      as (bearer & payload & data & conversation & id & u & _ & _ & _ & H).
    exists [("status", JStr "released"); ("mpesa_conversation_id", conversation)], id.
    destruct H as [[-> _]|[-> _]]; simpl; tauto.
  - intros e He H200.
    destruct (Hstatus H200) as (?&?&?&?&?&u&_&Hu&_). congruence.
  - intros e data conversation id bearer He Ht Hp Hc Hi Hok.
    destruct (Hgood Hok) as [_ [Hs|Hs]].
    + destruct (Hstatus Hs) as (?&?&?&?&?&u&_&Hu&_). congruence.
    + split; [done|].
      destruct Hcases
        as [[H _]|[(H & _ & e' & He')|(bearer' & payload & Ht' & H)]].
      * destruct (Hgood Hok) as [[rest Hr] _]. rewrite H in Hr. discriminate.
      * congruence.
      * assert (bearer' = bearer) as -> by congruence.
        destruct H as [[H _]|(?&?&?&_&_&_&H)].
        { rewrite H. eexists _, _. simpl. right. by left. }
        destruct H as [(_ & H & _)|(_ & _ & [[_ H]|[_ H]])];
          rewrite H; eexists _, _; simpl; right; by left.
Qed.

Lemma payout_effects_in_order_witness :
  status (snd (B2C.handler sandbox payout (Ok "token") (Ok payout_accepted)
                 (Throw StoreError))) = 500 /\
  exists url payload,
    In (ProviderPost url payload "token")
       (fst (B2C.handler sandbox payout (Ok "token") (Ok payout_accepted)
               (Throw StoreError))).
Proof.
  destruct (payout_effects_in_order sandbox payout (Ok "token")
              (Ok payout_accepted) (Throw StoreError))
    as (_ & _ & _ & _ & Hsent).
  apply (Hsent StoreError payout_accepted JUndefined (JStr "tx-1") "token");
    try reflexivity.
  intros [[H|H]|[H|(q & H & Hlt)]]; try discriminate H.
  injection H as <-. revert Hlt. unfold Qlt. simpl. lia.
Defined.

End HandlerProps.

(** ** Properties of the record-store helpers *)

Module SupabaseProps.
Import JsString Js Mpesa Supabase Sample.
Local Open Scope list_scope.

Lemma truthy_not_nullish v : truthy v = true -> nullish v = false.
Proof. by destruct v. Qed.

Lemma prop_ok_not_nullish v k w : prop v k = Ok w -> nullish v = false.
Proof. by destruct v. Qed.

Lemma usable_found v : nullish v = false -> usable (found v).
Proof. by split. Qed.

Lemma failure_refused e : failure (refused e).
Proof. by split. Qed.

Lemma failure_caught e : failure (caught e).
Proof. by split. Qed.

Lemma not_both o : usable o -> failure o -> False.
Proof. intros [H _] [H' _]. done. Qed.

(** The shape shared by the helpers that refuse a missing row. *)
Lemma checked_outcome (answer : Result JSON) (absent : Outcome) :
  failure absent ->
  let o :=
    try_catch
      (let! answered := answer in
       let! data := prop answered "data" in
       let! error := prop answered "error" in
       if truthy error then Ok (refused error)
       else if negb (truthy data) then Ok absent
       else Ok (found data)) in
  (usable o \/ failure o) /\
  (usable o ->
   exists answered err,
     answer = Ok answered /\ prop answered "data" = Ok (value o) /\
     prop answered "error" = Ok err /\ truthy err = false /\
     truthy (value o) = true).
Proof.
  intros Habsent o. subst o.
  destruct answer as [answered|e]; cbn [bind try_catch];
    [|split; [right; apply failure_caught|intros [H _]; done]].
  destruct (prop answered "data") as [data|e] eqn:Ed; cbn [bind try_catch];
    [|split; [right; apply failure_caught|intros [H _]; done]].
  destruct (prop answered "error") as [err|e] eqn:Ee; cbn [bind try_catch];
    [|split; [right; apply failure_caught|intros [H _]; done]].
  destruct (truthy err) eqn:Et; cbn [try_catch];
    [split; [right; apply failure_refused|intros [H _]; done]|].
  destruct (truthy data) eqn:Etd; cbn [negb try_catch].
  - split; [left; by apply usable_found, truthy_not_nullish|].
    intros _. by exists answered, err.
  - split; [by right|]. intros Hu. by destruct (not_both _ Hu Habsent).
Qed.

(** X12: [updateProject] never throws and returns either a project with a
    null error or a null [data] with an error, never both and never
    neither.  It always sends the select first, and sends the update only
    when the select answered without error and found a project; it returns
    a project only when the update answered without error with a row, and
    that row is what it returns. *)
Theorem updateProject_outcome (id : JSON) (fetched updated : Result JSON) :
  let out := updateProject id fetched updated in
  (usable (snd out) \/ failure (snd out)) /\
  ~ (usable (snd out) /\ failure (snd out)) /\
  (exists rest,
      fst out = Select "projects" "id, status" "id" id :: rest /\
      (rest = [] \/
       rest = [Update "projects" (list_to_map [("status", JStr "completed")])
                 "id" id])) /\
  (forall table fields column value,
      In (Update table fields column value) (fst out) ->
      exists answered project err,
        fetched = Ok answered /\
        prop answered "data" = Ok project /\ truthy project = true /\
        prop answered "error" = Ok err /\ truthy err = false) /\
  (usable (snd out) ->
   In (Update "projects" (list_to_map [("status", JStr "completed")]) "id" id)
      (fst out) /\
   exists answered err,
     updated = Ok answered /\
     prop answered "data" = Ok (value (snd out)) /\
     prop answered "error" = Ok err /\ truthy err = false /\
     truthy (value (snd out)) = true).
Proof.
  intros out. subst out. unfold updateProject.
  split; [|split; [intros [Hu Hf]; by destruct (not_both _ Hu Hf)|]].
  - destruct fetched as [answered|e]; cbn [bind];
      [|right; apply failure_caught].
    destruct (prop answered "data") as [project|e]; cbn [bind];
      [|right; apply failure_caught].
    destruct (prop answered "error") as [err|e]; cbn [bind];
      [|right; apply failure_caught].
    destruct (truthy err); [right; apply failure_refused|].
    destruct (truthy project); cbn [negb]; [|right; apply failure_refused].
    cbn [snd].
    apply (checked_outcome updated
             (refused (JObj [("message", JStr "No project was updated")]))).
    apply failure_refused.
  - destruct fetched as [answered|e]; cbn [bind].
    2:{ split; [eexists; split; [reflexivity|by left]|].
        split; [intros ? ? ? ? [H|[]]; discriminate H|intros [H _]; done]. }
    destruct (prop answered "data") as [project|e] eqn:Ed; cbn [bind].
    2:{ split; [eexists; split; [reflexivity|by left]|].
        split; [intros ? ? ? ? [H|[]]; discriminate H|intros [H _]; done]. }
    destruct (prop answered "error") as [err|e] eqn:Ee; cbn [bind].
    2:{ split; [eexists; split; [reflexivity|by left]|].
        split; [intros ? ? ? ? [H|[]]; discriminate H|intros [H _]; done]. }
    destruct (truthy err) eqn:Et.
    { split; [eexists; split; [reflexivity|by left]|].
      split; [intros ? ? ? ? [H|[]]; discriminate H|intros [H _]; done]. }
    destruct (truthy project) eqn:Etp; cbn [negb].
    2:{ split; [eexists; split; [reflexivity|by left]|].
        split; [intros ? ? ? ? [H|[]]; discriminate H|intros [H _]; done]. }
    split; [eexists; split; [reflexivity|by right]|].
    split; [intros ? ? ? ? _; by exists answered, project, err|].
    cbn [fst snd]. intros Hu. split; [right; by left|].
    by apply (checked_outcome updated
                (refused (JObj [("message", JStr "No project was updated")]))
                (failure_refused _)).
Qed.

Lemma updateProject_outcome_witness :
  exists answered project err,
    Ok (JObj [("data", JObj [("id", JStr "p1")]); ("error", JNull)])
      = Ok answered /\
    prop answered "data" = Ok project /\ truthy project = true /\
    prop answered "error" = Ok err /\ truthy err = false.
Proof.
  destruct (updateProject_outcome (JStr "p1")
              (Ok (JObj [("data", JObj [("id", JStr "p1")]); ("error", JNull)]))
              (Ok (JObj [("data", JNull); ("error", JNull)])))
    as (_ & _ & _ & Hsent & _).
  apply (Hsent "projects"
           (list_to_map [("status", JStr "completed")]) "id" (JStr "p1")).
  right. by left.
Defined.

(** X13: [InsertTransaction], [getTransaction] and [updateTransaction] each
    send exactly one query and never throw; each returns either a row with
    a null error or null with an error, never both and never neither.  A
    store answer with neither data nor error is reported as an error: by the
    "not found" check in the two last, and in [InsertTransaction] because
    reading [transaction.id] throws and the catch block returns that. *)
Theorem transaction_helpers_outcome (answer : Result JSON) (now : Date)
    (a b c d e f g h : JSON) :
  let helper (out : list Supabase.Query * Outcome) :=
    (exists q, fst out = [q]) /\
    (usable (snd out) \/ failure (snd out)) /\
    ~ (usable (snd out) /\ failure (snd out)) /\
    (usable (snd out) ->
     exists answered err,
       answer = Ok answered /\ prop answered "data" = Ok (value (snd out)) /\
       prop answered "error" = Ok err /\ truthy err = false) /\
    ((forall answered, answer = Ok answered ->
                       prop answered "data" = Ok JNull) ->
     failure (snd out)) in
  helper (InsertTransaction a b c d e f g h answer) /\
  helper (getTransaction a answer) /\
  helper (updateTransaction a now answer).
Proof.
  intros helper.
  assert (Hchecked : forall q absent,
    failure absent ->
    helper ([q],
            try_catch
              (let! answered := answer in
               let! data := prop answered "data" in
               let! error := prop answered "error" in
               if truthy error then Ok (refused error)
               else if negb (truthy data) then Ok absent
               else Ok (found data)))).
  { intros q absent Habsent. unfold helper. cbn [fst snd].
    destruct (checked_outcome answer absent Habsent) as [Hone Hus].
    split; [by eexists|]. split; [exact Hone|].
    split; [intros [Hu Hf]; by destruct (not_both _ Hu Hf)|].
    split.
    - intros Hu. destruct (Hus Hu) as (answered & err & H1 & H2 & H3 & H4 & _).
      by exists answered, err.
    - intros Hnull. destruct Hone as [Hu|Hf]; [|done].
      destruct (Hus Hu) as (answered & err & H1 & H2 & _ & _ & Ht).
      rewrite (Hnull answered H1) in H2. injection H2 as H2.
      rewrite <- H2 in Ht. discriminate. }
  split; [|split; apply Hchecked; apply failure_caught].
  unfold helper, InsertTransaction. cbn [fst snd].
  split; [by eexists|].
  destruct answer as [answered|e0]; cbn [bind try_catch].
  2:{ split; [right; apply failure_caught|].
      split; [intros [Hu Hf]; by destruct (not_both _ Hu Hf)|].
      split; [intros [H _]; done|intros _; apply failure_caught]. }
  destruct (prop answered "data") as [data|e0] eqn:Ed; cbn [bind try_catch].
  2:{ split; [right; apply failure_caught|].
      split; [intros [Hu Hf]; by destruct (not_both _ Hu Hf)|].
      split; [intros [H _]; done|intros _; apply failure_caught]. }
  destruct (prop answered "error") as [err|e0] eqn:Ee; cbn [bind try_catch].
  2:{ split; [right; apply failure_caught|].
      split; [intros [Hu Hf]; by destruct (not_both _ Hu Hf)|].
      split; [intros [H _]; done|intros _; apply failure_caught]. }
  destruct (truthy err) eqn:Et; cbn [try_catch].
  { split; [right; apply failure_refused|].
    split; [intros [Hu Hf]; by destruct (not_both _ Hu Hf)|].
    split; [intros [H _]; done|intros _; apply failure_refused]. }
  destruct (prop data "id") as [logged|e0] eqn:Ei; cbn [bind try_catch].
  - pose proof (prop_ok_not_nullish _ _ _ Ei) as Hn.
    split; [left; by apply usable_found|].
    split; [intros [Hu Hf]; by destruct (not_both _ Hu Hf)|].
    split; [intros _; by exists answered, err|].
    intros Hnull. rewrite (Hnull answered eq_refl) in Ed.
    injection Ed as <-. discriminate.
  - split; [right; apply failure_caught|].
    split; [intros [Hu Hf]; by destruct (not_both _ Hu Hf)|].
    split; [intros [H _]; done|intros _; apply failure_caught].
Qed.

Lemma transaction_helpers_outcome_witness :
  failure (snd (InsertTransaction (JStr "p") (JStr "b") (JStr "c") (JStr "f")
                  (JNum 100) (JNum 10) (JNum 90) (JStr "pi_1")
                  (Ok (JObj [("data", JNull); ("error", JNull)])))).
Proof.
  destruct (transaction_helpers_outcome
              (Ok (JObj [("data", JNull); ("error", JNull)])) today
              (JStr "p") (JStr "b") (JStr "c") (JStr "f")
              (JNum 100) (JNum 10) (JNum 90) (JStr "pi_1"))
    as ((_ & _ & _ & _ & Hnull) & _ & _).
  apply Hnull. intros answered [= <-]. reflexivity.
Defined.

(** *** [updateById] *)

Lemma written_lookup fields row k :
  written fields row !! k =
    match fields !! k with
    | Some v => if defined v then Some v else row !! k
    | None => row !! k
    end.
Proof.
  unfold written. rewrite lookup_union.
  destruct (fields !! k) as [v|] eqn:E.
  - destruct (defined v) eqn:Ev.
    + rewrite (map_lookup_filter_Some_2 _ _ k v E Ev).
      by destruct (row !! k).
    + rewrite map_lookup_filter_None_2; [by destruct (row !! k)|].
      right. intros v' Hv'. simpl. congruence.
  - rewrite map_lookup_filter_None_2 by by left.
    by destruct (row !! k).
Qed.

(** X14: [updateById] sends one update filtered by the id, whose fields are
    the caller's [updates] over the defaults: a field the caller gives wins,
    [status] is "released" and [updated_at] the current time when the
    caller does not give them.  In a row the update reaches, a field the
    caller gives as undefined is left as it was, the default being dropped
    too; and when the store answers without error the helper returns the
    answer's [data] as it is, null included. *)
Theorem updateById_fields (id : JSON) (updates : gmap string JSON)
    (now : Date) (answer : Result JSON) :
  let out := updateById id updates now answer in
  exists fields,
    fst out = [Update "transactions" fields "id" id] /\
    (forall k v, updates !! k = Some v -> fields !! k = Some v) /\
    (updates !! "status" = None ->
     fields !! "status" = Some (JStr "released")) /\
    (updates !! "updated_at" = None ->
     fields !! "updated_at" = Some (JStr (toISOString now))) /\
    (forall k, k <> "status" -> k <> "updated_at" ->
               fields !! k = updates !! k) /\
    (forall row k,
        updates !! k = Some JUndefined ->
        written fields row !! k = row !! k) /\
    (forall row,
        updates !! "status" = None ->
        written fields row !! "status" = Some (JStr "released")) /\
    (forall answered data err,
        answer = Ok answered -> prop answered "data" = Ok data ->
        prop answered "error" = Ok err -> truthy err = false ->
        snd out = found data).
Proof.
  intros out. subst out. unfold updateById. eexists.
  split; [reflexivity|]. unfold spread.
  split; [|split; [|split; [|split; [|split; [|split]]]]].
  - intros k v Hk. by apply lookup_union_Some_l.
  - intros Hk. rewrite lookup_union_r by done. done.
  - intros Hk. rewrite lookup_union_r by done. done.
  - intros k Hs Hu. rewrite lookup_union.
    change (list_to_map [("status", JStr "released");
                         ("updated_at", JStr (toISOString now))])
      with (<["status" := JStr "released"]>
              (<["updated_at" := JStr (toISOString now)]>
                 (∅ : gmap string JSON))).
    rewrite (lookup_insert_ne _ "status" k) by done.
    rewrite (lookup_insert_ne _ "updated_at" k) by done.
    rewrite lookup_empty. by destruct (updates !! k).
  - intros row k Hk. rewrite written_lookup.
    by rewrite (lookup_union_Some_l _ _ _ _ Hk).
  - intros row Hk. rewrite written_lookup.
    rewrite lookup_union_r by done. done.
  - intros answered data err -> Hd He Ht. cbn [snd bind try_catch].
    rewrite Hd, He. cbn [bind]. by rewrite Ht.
Qed.

Lemma updateById_fields_witness :
  snd (updateById (JStr "tx-1") ∅ today
         (Ok (JObj [("data", JNull); ("error", JNull)])))
  = found JNull.
Proof.
  destruct (updateById_fields (JStr "tx-1") ∅ today
              (Ok (JObj [("data", JNull); ("error", JNull)])))
    as (fields & _ & _ & _ & _ & _ & _ & _ & Hdata).
  by apply (Hdata (JObj [("data", JNull); ("error", JNull)]) JNull JNull).
Defined.

(** *** The helpers that return the store's [data] as it is *)

Lemma data_or_error_outcome (answer : Result JSON) :
  let o := data_or_error answer in
  (error o = NoError \/ failure o) /\
  (forall answered data err,
      answer = Ok answered -> prop answered "data" = Ok data ->
      prop answered "error" = Ok err -> truthy err = false ->
      o = found data) /\
  (error o = NoError ->
   exists answered err,
     answer = Ok answered /\ prop answered "data" = Ok (value o) /\
     prop answered "error" = Ok err /\ truthy err = false).
Proof.
  intros o. subst o. unfold data_or_error.
  split; [|split].
  - destruct answer as [answered|e]; cbn [bind try_catch];
      [|right; apply failure_caught].
    destruct (prop answered "data") as [data|e]; cbn [bind try_catch];
      [|right; apply failure_caught].
    destruct (prop answered "error") as [err|e]; cbn [bind try_catch];
      [|right; apply failure_caught].
    destruct (truthy err); [right; apply failure_refused|by left].
  - intros answered data err -> Hd He Ht. cbn [bind].
    rewrite Hd, He. cbn [bind]. by rewrite Ht.
  - destruct answer as [answered|e]; cbn [bind try_catch]; [|done].
    destruct (prop answered "data") as [data|e] eqn:Ed; cbn [bind try_catch];
      [|done].
    destruct (prop answered "error") as [err|e] eqn:Ee; cbn [bind try_catch];
      [|done].
    destruct (truthy err) eqn:Et; cbn [try_catch]; [done|].
    intros _. by exists answered, err.
Qed.

(** X15: [updateFreelancerStripeAccount], [removeFreelancerStripeAccount],
    [profileCheck] and [updateLancer] each send exactly one query and never
    throw.  The returned [error] is null exactly when the store answered
    with a falsy error, and [data] is then the answer's [data] unchanged;
    otherwise [data] is null and [error] is set.  Unlike [getTransaction]
    they do not check the row: an answer with neither data nor error is
    returned as [{data: null, error: null}]. *)
Theorem profile_helpers_outcome (answer : Result JSON) (now : Date)
    (userId accountId : JSON) :
  let helper (out : list Supabase.Query * Outcome) :=
    (exists q, fst out = [q]) /\
    (error (snd out) = NoError \/ failure (snd out)) /\
    (forall answered data err,
        answer = Ok answered -> prop answered "data" = Ok data ->
        prop answered "error" = Ok err -> truthy err = false ->
        snd out = found data) /\
    (error (snd out) = NoError ->
     exists answered err,
       answer = Ok answered /\
       prop answered "data" = Ok (value (snd out)) /\
       prop answered "error" = Ok err /\ truthy err = false) /\
    (answer = Ok (JObj [("data", JNull); ("error", JNull)]) ->
     ~ usable (snd out) /\ ~ failure (snd out)) in
  helper (updateFreelancerStripeAccount userId accountId now answer) /\
  helper (removeFreelancerStripeAccount userId now answer) /\
  helper (profileCheck userId answer) /\
  helper (updateLancer userId accountId now answer).
Proof.
  intros helper.
  assert (Hall : forall q, helper ([q], data_or_error answer)).
  { intros q. unfold helper. cbn [fst snd].
    destruct (data_or_error_outcome answer) as (H1 & H2 & H3).
    split; [by eexists|]. split; [exact H1|]. split; [exact H2|].
    split; [exact H3|].
    intros ->. split; [intros [_ Hn]; discriminate Hn|].
    intros [Hf _]. by apply Hf. }
  split; [|split; [|split]]; apply Hall.
Qed.

Lemma profile_helpers_outcome_witness :
  snd (profileCheck (JStr "u1")
         (Ok (JObj [("data", JArr []); ("error", JNull)])))
  = found (JArr []).
Proof.
  destruct (profile_helpers_outcome
              (Ok (JObj [("data", JArr []); ("error", JNull)])) today
              (JStr "u1") (JStr "acct_1"))
    as (_ & _ & (_ & _ & Hdata & _) & _).
  by apply (Hdata (JObj [("data", JArr []); ("error", JNull)])
              (JArr []) JNull).
Defined.

(** X16: [getFreelancerStripeAccount] sends one select and never throws.
    The [stripeAccountId] it returns is null or a truthy value, never
    undefined, an empty string, zero or false; a truthy one is the
    [stripe_account_id] of the answer's [data].  When the returned [error]
    is not null the id is null.  A missing row is not an error: an answer
    with a falsy error and a null, undefined or empty [data] gives
    [{stripeAccountId: null, error: null}]. *)
Theorem getFreelancerStripeAccount_outcome (userId : JSON)
    (answer : Result JSON) :
  let out := getFreelancerStripeAccount userId answer in
  fst out = [Select "freelancer_profiles" "stripe_account_id" "user_id"
               userId] /\
  (value (snd out) = JNull \/ truthy (value (snd out)) = true) /\
  (error (snd out) = NoError \/ failure (snd out)) /\
  (truthy (value (snd out)) = true ->
   exists answered data err,
     answer = Ok answered /\ prop answered "data" = Ok data /\
     prop answered "error" = Ok err /\ truthy err = false /\
     prop data "stripe_account_id" = Ok (value (snd out))) /\
  (forall answered data err,
      answer = Ok answered -> prop answered "data" = Ok data ->
      prop answered "error" = Ok err -> truthy err = false ->
      truthy (optional_prop data "stripe_account_id") = false ->
      snd out = found JNull).
Proof.
  intros out. subst out. unfold getFreelancerStripeAccount. cbn [fst snd].
  split; [reflexivity|].
  destruct answer as [answered|e]; cbn [bind try_catch].
  2:{ split; [by left|]. split; [right; apply failure_caught|].
      split; [discriminate|]. intros ? ? ? H. discriminate H. }
  destruct (prop answered "data") as [data|e] eqn:Ed; cbn [bind try_catch].
  2:{ split; [by left|]. split; [right; apply failure_caught|].
      split; [discriminate|]. intros ? ? ? [= <-] H. congruence. }
  destruct (prop answered "error") as [err|e] eqn:Ee; cbn [bind try_catch].
  2:{ split; [by left|]. split; [right; apply failure_caught|].
      split; [discriminate|]. intros ? ? ? [= <-] _ H. congruence. }
  destruct (truthy err) eqn:Et; cbn [try_catch].
  { split; [by left|]. split; [right; apply failure_refused|].
    split; [discriminate|]. intros ? ? ? [= <-] _ H. congruence. }
  destruct (truthy (optional_prop data "stripe_account_id")) eqn:Eid;
    cbn [found value error].
  - split; [by right|]. split; [by left|].
    split.
    + intros _. exists answered, data, err.
      repeat (split; [done|]).
      destruct data; try discriminate Eid. reflexivity.
    + intros ? d ? [= <-] Hd _ _ Hf.
      rewrite Ed in Hd. injection Hd as <-. congruence.
  - split; [by left|]. split; [by left|].
    split; [discriminate|]. reflexivity.
Qed.

Lemma getFreelancerStripeAccount_outcome_witness :
  snd (getFreelancerStripeAccount (JStr "u1")
         (Ok (JObj [("data", JObj [("stripe_account_id", JStr "")]);
                    ("error", JNull)])))
  = found JNull.
Proof.
  destruct (getFreelancerStripeAccount_outcome (JStr "u1")
              (Ok (JObj [("data", JObj [("stripe_account_id", JStr "")]);
                         ("error", JNull)])))
    as (_ & _ & _ & _ & Hmissing).
  by apply (Hmissing
              (JObj [("data", JObj [("stripe_account_id", JStr "")]);
                     ("error", JNull)])
              (JObj [("stripe_account_id", JStr "")]) JNull).
Defined.

(** X17: [Commission] never throws and never reports a failure.  It sends
    one select of the commission rate; when the store answers it returns
    the answer's [data] whatever the answer's [error] is, and when the
    query throws, or answers with null or undefined, it returns
    undefined. *)
Theorem Commission_ignores_error (answer : Result JSON) :
  let out := Commission answer in
  fst out = [Select "platform_settings" "setting_value" "setting_key"
               (JStr "commission_rate")] /\
  (forall answered data,
      answer = Ok answered -> prop answered "data" = Ok data ->
      snd out = data) /\
  ((forall answered, answer = Ok answered -> nullish answered = true) ->
   snd out = JUndefined).
Proof.
  intros out. subst out. unfold Commission. cbn [fst snd].
  split; [reflexivity|]. split.
  - intros answered data -> Hd. cbn [bind]. rewrite Hd. cbn [bind].
    destruct answered; try discriminate Hd; reflexivity.
  - intros Hn. destruct answer as [answered|e]; cbn [bind]; [|reflexivity].
    specialize (Hn answered eq_refl). by destruct answered.
Qed.

Lemma Commission_ignores_error_witness :
  snd (Commission
         (Ok (JObj [("data", JObj [("setting_value", JNum 10)]);
                    ("error", JObj [("message", JStr "stale")])])))
  = JObj [("setting_value", JNum 10)].
Proof.
  destruct (Commission_ignores_error
              (Ok (JObj [("data", JObj [("setting_value", JNum 10)]);
                         ("error", JObj [("message", JStr "stale")])])))
    as (_ & Hdata & _).
  by apply (Hdata (JObj [("data", JObj [("setting_value", JNum 10)]);
                         ("error", JObj [("message", JStr "stale")])])).
Defined.

End SupabaseProps.

(** ** Properties of the utility routes *)

Module UtilityProps.
Import JsString Js Mpesa Phone Effects Utility Sample.

Lemma append_cons c (s t : string) : String c s ++ t = String c (s ++ t).
Proof. reflexivity. Qed.

Lemma startsWith_iff p : forall s,
  startsWith s p = true <-> exists rest, s = p ++ rest.
Proof.
  unfold startsWith. induction p as [|c p IH]; intros s.
  - split; [intros _; by exists s|]. intros _. by destruct s.
  - destruct s as [|c' s]; cbn [String.prefix].
    + split; [discriminate|]. intros [rest H]. discriminate H.
    + destruct (ascii_dec c c') as [<-|Hne].
      * rewrite IH. split; intros [rest H]; exists rest.
        -- rewrite append_cons. by rewrite H.
        -- rewrite append_cons in H. by injection H.
      * split; [discriminate|]. intros [rest H].
        rewrite append_cons in H. injection H as H _. by destruct Hne.
Qed.

Lemma includes_iff sub : forall s,
  includes s sub = true <-> exists a b, s = a ++ sub ++ b.
Proof.
  induction s as [|c s IH]; cbn [includes].
  - rewrite orb_false_r, startsWith_iff. split.
    + intros [rest H]. by exists "", rest.
    + intros (a & b & H). destruct a as [|c a]; [by exists b|discriminate H].
  - rewrite orb_true_iff, startsWith_iff, IH. split.
    + intros [[rest H]|(a & b & H)]; [by exists "", rest|].
      exists (String c a), b. rewrite append_cons. by rewrite H.
    + intros (a & b & H). destruct a as [|c' a].
      * left. by exists b.
      * right. rewrite append_cons in H. injection H as _ H. by exists a, b.
Qed.

Lemma length_append (s t : string) :
  String.length (s ++ t) = (String.length s + String.length t)%nat.
Proof.
  induction s as [|c s IH]; [reflexivity|].
  rewrite append_cons. cbn [String.length]. by rewrite IH.
Qed.

(** The length of a formatted number, from the cleaned input. *)
Lemma formatPhoneNumber_length phone :
  let cleaned := remove_class strip_class phone in
  String.length (formatPhoneNumber phone) =
    if startsWith cleaned "0" then (String.length cleaned + 2)%nat
    else if startsWith cleaned "254" then String.length cleaned
    else (String.length cleaned + 3)%nat.
Proof.
  intros cleaned. unfold formatPhoneNumber. fold cleaned. clearbody cleaned.
  destruct (startsWith cleaned "0") eqn:E0.
  - rewrite PhoneProps.startsWith_254. cbn [negb].
    apply startsWith_iff in E0 as [rest ->].
    change ("0" ++ rest) with (String "0" rest).
    rewrite length_append. cbn [slice1 String.length]. lia.
  - destruct (startsWith cleaned "254"); cbn [negb]; [done|].
    rewrite length_append. cbn [String.length]. lia.
Qed.

Lemma status_bad_request message : status (bad_request message) = 400.
Proof. reflexivity. Qed.

(** The answer of [/validate-phone], case by case. *)
Lemma validate_phone_cases reqBody :
  (nullish reqBody = true /\
   validate_phone reqBody = validation_failed TypeError) \/
  exists v,
    prop reqBody "phoneNumber" = Ok v /\
    ((truthy v = false /\
      validate_phone reqBody = bad_request "Phone number is required") \/
     (truthy v = true /\ (forall s, v <> JStr s) /\
      validate_phone reqBody = validation_failed TypeError) \/
     exists s,
       v = JStr s /\ s <> "" /\
       ((String.length (formatPhoneNumber s) <> 12%nat /\
         validate_phone reqBody = bad_request "Invalid Kenyan phone number") \/
        (String.length (formatPhoneNumber s) = 12%nat /\
         validate_phone reqBody =
           json 200 (JObj [
             ("status", JStr "success");
             ("data", JObj [("original", JStr s);
                            ("formatted", JStr (formatPhoneNumber s));
                            ("isValid", JBool true)])])))).
Proof.
  unfold validate_phone.
  destruct (prop reqBody "phoneNumber") as [v|e] eqn:Ep; cbn [bind].
  - right. exists v. split; [done|].
    destruct (truthy v) eqn:Et; cbn [negb]; [|by left].
    right.
    destruct v as [| |b|n|s|items|props]; try discriminate Et;
      try (left; split; [done|]; split; [intros s'; discriminate|reflexivity]).
    right. exists s. split; [done|].
    split; [intros ->; discriminate Et|].
    cbn [format_value bind].
    rewrite PhoneProps.formatPhoneNumber_prefix. cbn [negb].
    rewrite orb_false_r.
    destruct (Nat.eqb_spec (String.length (formatPhoneNumber s)) 12)
      as [Heq|Hne]; cbn [negb]; [by right|by left].
  - left. destruct reqBody; try discriminate Ep;
      injection Ep as <-; by split.
Qed.

(** X18: [/validate-phone] answers 200, 400 or 500.  It answers 500 exactly
    when the request has no body or [phoneNumber] is a truthy value that is
    not a string (a number, true, an array, an object): formatting throws
    and the catch block answers.  It answers 200 exactly when [phoneNumber]
    is a non-empty string whose formatted value has 12 code units; the test
    on the "254" prefix never decides, as formatting always gives that
    prefix.  In terms of the string with white space, dashes and plus signs
    removed: "0" followed by 9 code units, "254" followed by 9, or 9 code
    units starting with neither.  What the code units are is not
    examined. *)
Theorem validate_phone_accepts (reqBody : JSON) :
  let answer := status (validate_phone reqBody) in
  (answer = 200 \/ answer = 400 \/ answer = 500) /\
  (answer = 500 <->
   nullish reqBody = true \/
   exists v, prop reqBody "phoneNumber" = Ok v /\ truthy v = true /\
             forall s, v <> JStr s) /\
  (answer = 400 <->
   exists v, prop reqBody "phoneNumber" = Ok v /\
             (truthy v = false \/
              exists s, v = JStr s /\
                        String.length (formatPhoneNumber s) <> 12%nat)) /\
  (answer = 200 <->
   exists s, prop reqBody "phoneNumber" = Ok (JStr s) /\ s <> "" /\
             String.length (formatPhoneNumber s) = 12%nat) /\
  (answer = 200 <->
   exists s,
     prop reqBody "phoneNumber" = Ok (JStr s) /\ s <> "" /\
     let cleaned := remove_class strip_class s in
     (startsWith cleaned "0" = true /\ String.length cleaned = 10%nat \/
      startsWith cleaned "254" = true /\ String.length cleaned = 12%nat \/
      startsWith cleaned "0" = false /\ startsWith cleaned "254" = false /\
      String.length cleaned = 9%nat)).
Proof.
  intros answer. subst answer.
  assert (Hnull : forall v, nullish reqBody = true ->
                            prop reqBody "phoneNumber" = Ok v -> False).
  { intros v Hn Hv. by destruct reqBody. }
  assert (Hshape : forall s,
    String.length (formatPhoneNumber s) = 12%nat <->
    let cleaned := remove_class strip_class s in
    (startsWith cleaned "0" = true /\ String.length cleaned = 10%nat \/
     startsWith cleaned "254" = true /\ String.length cleaned = 12%nat \/
     startsWith cleaned "0" = false /\ startsWith cleaned "254" = false /\
     String.length cleaned = 9%nat)).
  { intros s. rewrite formatPhoneNumber_length. cbv zeta.
    set (cleaned := remove_class strip_class s).
    destruct (startsWith cleaned "0") eqn:E0.
    - split; [intros H; left; split; [done|lia]|].
      intros [[_ H]|[[H1 _]|[H _]]]; try congruence; try lia.
      apply startsWith_iff in E0 as [r0 Hr0].
      apply startsWith_iff in H1 as [r1 Hr1].
      rewrite Hr0 in Hr1. discriminate Hr1.
    - destruct (startsWith cleaned "254") eqn:E254.
      + split; [intros H; right; left; by split|].
        intros [[H _]|[[_ H]|[_ [H _]]]]; congruence.
      + split; [intros H; right; right; repeat (split; [done|]); lia|].
        intros [[H _]|[[H _]|[_ [_ H]]]]; try congruence. lia. }
  destruct (validate_phone_cases reqBody)
    as [[Hn ->]|(v & Hv & [[Ht ->]|[(Ht & Hs & ->)|(s & -> & Hne & H)]])].
  - split; [by right; right|]. split; [split; [by left|done]|].
    split; [split; [discriminate|]; intros (v & Hv & _); by destruct (Hnull v)|].
    split; (split; [discriminate|]); intros (s & Hv & _);
      by destruct (Hnull (JStr s)).
  - split; [by right; left|].
    split.
    { split; [discriminate|].
      intros [Hn|(v' & Hv' & Ht' & _)]; [by destruct (Hnull v)|]. congruence. }
    split; [split; [intros _; exists v; split; [done|by left]|done]|].
    split; (split; [discriminate|]); intros (s & Hv' & Hne & _);
      rewrite Hv in Hv'; injection Hv' as ->; simpl in Ht;
      apply negb_false_iff, String.eqb_eq in Ht; done.
  - split; [by right; right|].
    split; [split; [intros _; right; by exists v|done]|].
    split.
    { split; [discriminate|].
      intros (v' & Hv' & [Ht'|(s & -> & _)]); rewrite Hv in Hv';
        injection Hv' as ->; [congruence|by destruct (Hs s)]. }
    split; (split; [discriminate|]); intros (s & Hv' & _);
      rewrite Hv in Hv'; injection Hv' as ->; by destruct (Hs s).
  - destruct H as [[Hlen ->]|[Hlen ->]].
    + split; [by right; left|].
      split.
      { split; [discriminate|].
        intros [Hn|(v' & Hv' & _ & Hs)]; [by destruct (Hnull (JStr s))|].
        rewrite Hv in Hv'. injection Hv' as <-. by destruct (Hs s). }
      split; [split; [intros _; exists (JStr s); split; [done|]; right;
                      by exists s|done]|].
      split; (split; [discriminate|]); intros (s' & Hv' & _ & H);
        rewrite Hv in Hv'; injection Hv' as <-; [done|].
      by apply Hshape in H.
    + split; [by left|].
      split; [split; [discriminate|]|].
      { intros [Hn|(v' & Hv' & _ & Hs)]; [by destruct (Hnull (JStr s))|].
        rewrite Hv in Hv'. injection Hv' as <-. by destruct (Hs s). }
      split; [split; [discriminate|]|].
      { intros (v' & Hv' & [Ht'|(s' & -> & Hl')]); rewrite Hv in Hv'.
        - injection Hv' as <-. simpl in Ht'.
          apply negb_false_iff, String.eqb_eq in Ht'. done.
        - injection Hv' as <-. done. }
      split; (split; [intros _; exists s; split; [done|]; split; [done|]|done]);
        [done|by apply Hshape].
Qed.

Lemma validate_phone_accepts_witness :
  status (validate_phone (JObj [("phoneNumber", JStr "+254 746-221 954")]))
    = 200 /\
  status (validate_phone (JObj [("phoneNumber", JNum 746221954)])) = 500.
Proof.
  split.
  - apply (validate_phone_accepts
             (JObj [("phoneNumber", JStr "+254 746-221 954")])).
    exists "+254 746-221 954". split; [reflexivity|]. split; [discriminate|].
    right. left. split; reflexivity.
  - apply (validate_phone_accepts (JObj [("phoneNumber", JNum 746221954)])).
    right. exists (JNum 746221954). split; [reflexivity|].
    split; [reflexivity|]. intros s. discriminate.
Defined.

(** X19: a number that [/validate-phone] accepts is a string and is
    returned in canonical form: 12 code units starting with "254", free of
    white space, dashes and plus signs, unchanged by formatting again, and
    accepted again when submitted in its place with the same formatted
    value. *)
Theorem validated_number_is_canonical (reqBody : JSON) :
  status (validate_phone reqBody) = 200 ->
  exists phoneNumber,
    prop reqBody "phoneNumber" = Ok (JStr phoneNumber) /\
    let formatted := formatPhoneNumber phoneNumber in
    validate_phone reqBody =
      json 200 (JObj [
        ("status", JStr "success");
        ("data", JObj [("original", JStr phoneNumber);
                       ("formatted", JStr formatted);
                       ("isValid", JBool true)])]) /\
    String.length formatted = 12%nat /\
    startsWith formatted "254" = true /\
    all_chars (fun c => negb (strip_class c)) formatted = true /\
    formatPhoneNumber formatted = formatted /\
    validate_phone (JObj [("phoneNumber", JStr formatted)]) =
      json 200 (JObj [
        ("status", JStr "success");
        ("data", JObj [("original", JStr formatted);
                       ("formatted", JStr formatted);
                       ("isValid", JBool true)])]).
Proof.
  intros H200.
  destruct (validate_phone_cases reqBody)
    as [[Hn E]|(v & Hv & [[Ht E]|[(Ht & Hs & E)|(s & -> & Hne & H)]])];
    try (rewrite E in H200; discriminate H200).
  destruct H as [[Hlen E]|[Hlen E]]; [rewrite E in H200; discriminate H200|].
  exists s. split; [exact Hv|]. intros formatted.
  pose proof (PhoneProps.formatPhoneNumber_prefix s) as Hp.
  pose proof (PhoneProps.formatPhoneNumber_clean s) as Hc.
  fold formatted in Hp, Hc, Hlen, E.
  pose proof (PhoneProps.formatPhoneNumber_fixed formatted Hc Hp) as Hfix.
  split; [exact E|]. repeat (split; [done|]).
  destruct (validate_phone_cases (JObj [("phoneNumber", JStr formatted)]))
    as [[Hn _]|(v & Hv' & [[Ht _]|[(_ & Hs & _)|(s' & -> & _ & H)]])].
  - discriminate Hn.
  - injection Hv' as <-. simpl in Ht.
    apply negb_false_iff, String.eqb_eq in Ht.
    rewrite Ht in Hlen. discriminate Hlen.
  - injection Hv' as <-. by destruct (Hs formatted).
  - injection Hv' as <-. rewrite Hfix in H.
    destruct H as [[Hl _]|[_ ->]]; done.
Qed.

Lemma validated_number_is_canonical_witness :
  validate_phone (JObj [("phoneNumber", JStr "254746221954")]) =
    json 200 (JObj [
      ("status", JStr "success");
      ("data", JObj [("original", JStr "254746221954");
                     ("formatted", JStr "254746221954");
                     ("isValid", JBool true)])]).
Proof.
  assert (H200 : status (validate_phone
                           (JObj [("phoneNumber", JStr "0746 221 954")])) = 200)
    by reflexivity.
  destruct (validated_number_is_canonical
              (JObj [("phoneNumber", JStr "0746 221 954")]) H200)
    as (phoneNumber & Hread & _ & _ & _ & _ & _ & Hagain).
  injection Hread as <-. exact Hagain.
Defined.

(** *** [/debug-config] and [/test-token] *)

Lemma placeholder_iff v : placeholder v = false <-> configured v.
Proof.
  unfold placeholder, configured. destruct v as [s|]; simpl.
  - destruct (String.eqb_spec s "") as [->|Hne]; simpl.
    + split; [discriminate|]. intros (s & [= <-] & H & _). done.
    + split.
      * intros Hi. exists s. split; [done|]. split; [done|].
        intros a b Hs.
        assert (includes s "your_" = true) by (apply includes_iff; eauto).
        congruence.
      * intros (s' & [= <-] & _ & Hfree).
        destruct (includes s "your_") eqn:E; [|done].
        apply includes_iff in E as (a & b & E). by destruct (Hfree a b).
  - split; [discriminate|]. intros (s & H & _). discriminate H.
Qed.

Lemma issues_none env :
  issues env = [] <->
  placeholder (MPESA_CONSUMER_KEY env) = false /\
  placeholder (MPESA_CONSUMER_SECRET env) = false /\
  placeholder (MPESA_SHORTCODE env) = false /\
  placeholder (MPESA_PASSKEY env) = false.
Proof.
  unfold issues. cbn [MPESA_CONFIG consumerKey consumerSecret shortCode passKey].
  destruct (placeholder (MPESA_CONSUMER_KEY env)),
           (placeholder (MPESA_CONSUMER_SECRET env)),
           (placeholder (MPESA_SHORTCODE env)),
           (placeholder (MPESA_PASSKEY env)); simpl; intuition discriminate.
Qed.

(** X20: [/debug-config] always answers 200; its status is "success" when
    it lists no issue and "warning" otherwise; it lists at most four
    issues, and none exactly when the consumer key, the consumer secret,
    the short code and the pass key are each set, not empty and free of the
    text "your_" at any position. *)
Theorem debug_config_reports (env : Env) :
  status (debug_config env) = 200 /\
  (List.length (issues env) <= 4)%nat /\
  (issues env = [] <->
   configured (MPESA_CONSUMER_KEY env) /\
   configured (MPESA_CONSUMER_SECRET env) /\
   configured (MPESA_SHORTCODE env) /\
   configured (MPESA_PASSKEY env)) /\
  exists props,
    body (debug_config env) = Json (JObj props) /\
    own_property props "issues" = JArr (List.map JStr (issues env)) /\
    (own_property props "status" = JStr "success" \/
     own_property props "status" = JStr "warning") /\
    (own_property props "status" = JStr "success" <-> issues env = []).
Proof.
  split; [reflexivity|]. split; [|split].
  - unfold issues.
    destruct (placeholder _), (placeholder _), (placeholder _),
             (placeholder _); simpl; lia.
  - rewrite issues_none, !placeholder_iff. reflexivity.
  - unfold debug_config. eexists. split; [reflexivity|].
    split; [reflexivity|].
    destruct (issues env) as [|i rest]; cbn.
    + split; [by left|]. done.
    + split; [by right|]. split; discriminate.
Qed.

Lemma debug_config_reports_witness :
  issues sandbox = [].
Proof.
  apply (debug_config_reports sandbox).
  repeat split;
    (eexists; split; [reflexivity|]; split; [discriminate|]);
    intros a b E;
    (assert (Hi : includes (a ++ "your_" ++ b) "your_" = true)
       by (apply includes_iff; eauto));
    rewrite <- E in Hi; vm_compute in Hi; discriminate Hi.
Defined.

Lemma substring_short n : forall s,
  (String.length s <= n)%nat -> String.substring 0 n s = s.
Proof.
  induction n as [|n IH]; intros [|c s] H; simpl in *; try done; try lia.
  rewrite IH by lia. done.
Qed.

Lemma substring_long n : forall s,
  (n <= String.length s)%nat ->
  String.length (String.substring 0 n s) = n /\
  exists rest, s = String.substring 0 n s ++ rest.
Proof.
  induction n as [|n IH]; intros [|c s] H; simpl in *; try lia.
  - split; [done|]. by exists "".
  - split; [done|]. by exists (String c s).
  - destruct (IH s) as [Hl [rest Hr]]; [lia|].
    split; [by rewrite Hl|]. exists rest.
    rewrite append_cons. by rewrite <- Hr.
Qed.

(** X21: a preview is the first code units of a value followed by "...":
    the first 10 of a credential in [/debug-config], the first 20 of the
    token in [/test-token].  A value longer than that is cut, and a value
    of at most that length is shown whole. *)
Theorem previews_show_short_values :
  (forall n s,
      String.length (preview n s)
        = (Nat.min n (String.length s) + 3)%nat /\
      ((String.length s <= n)%nat -> preview n s = s ++ "...") /\
      ((n <= String.length s)%nat ->
       exists shown rest,
         String.length shown = n /\ s = shown ++ rest /\
         preview n s = shown ++ "...")) /\
  (forall env secret,
      MPESA_CONSUMER_SECRET env = Some secret -> secret <> "" ->
      exists props config,
        body (debug_config env) = Json (JObj props) /\
        own_property props "config" = JObj config /\
        own_property config "consumerSecretPreview"
          = JStr (preview 10 secret)) /\
  (forall tok,
      exists props,
        body (test_token (TokenCache.Resolved tok)) = Json (JObj props) /\
        own_property props "tokenPreview" = JStr (preview 20 tok) /\
        own_property props "tokenLength"
          = JNum (Z.of_nat (String.length tok))).
Proof.
  split; [|split].
  - intros n s. unfold preview. rewrite length_append. cbn [String.length].
    destruct (Nat.le_ge_cases (String.length s) n) as [Hs|Hl].
    + rewrite (substring_short n s Hs). split; [lia|]. split; [done|].
      intros Hn. exists s, "". split; [lia|].
      split; [|done]. clear. induction s as [|c s IH]; [done|].
      rewrite append_cons. by rewrite <- IH.
    + destruct (substring_long n s Hl) as [Hlen [rest Hr]].
      rewrite Hlen. split; [lia|]. split.
      * intros Hs. by rewrite (substring_short n s Hs).
      * intros _. by exists (String.substring 0 n s), rest.
  - intros env secret Hs Hne. unfold debug_config. eexists _, _.
    split; [reflexivity|]. split; [reflexivity|].
    cbn [MPESA_CONFIG consumerSecret]. rewrite Hs.
    unfold credential_preview. cbn [str_truthy].
    apply String.eqb_neq in Hne. rewrite Hne. reflexivity.
  - intros tok. eexists. split; [reflexivity|]. split; reflexivity.
Qed.

Lemma previews_show_short_values_witness :
  preview 10 "secret" = "secret..." /\
  exists props config,
    body (debug_config sandbox) = Json (JObj props) /\
    own_property props "config" = JObj config /\
    own_property config "consumerSecretPreview" = JStr "secret...".
Proof.
  destruct previews_show_short_values as (Hp & Hd & _).
  split.
  - apply (Hp 10%nat "secret"). simpl. lia.
  - apply (Hd sandbox "secret"); [reflexivity|discriminate].
Defined.

End UtilityProps.

(** ** Further properties of the signed password *)

Module PasswordMore.
Import JsString Js Mpesa Base64 Sample.
Local Open Scope list_scope.

Ltac euclid := zify; Z.to_euclidean_division_equations; lia.

Lemma alphabet_all_checked :
  forallb alphabet_checked (List.map N.of_nat (seq 0 64)) = true.
Proof. vm_compute. reflexivity. Qed.

Lemma sextet_char n :
  exists c,
    sextet n = String c EmptyString /\
    unsextet c = Some (n mod 64)%N /\ Ascii.eqb c "=" = false.
Proof.
  assert (Hm : (n mod 64 < 64)%N) by (apply N.mod_upper_bound; lia).
  assert (Hc : alphabet_checked (n mod 64) = true).
  { pose proof alphabet_all_checked as Hall.
    rewrite forallb_forall in Hall. apply Hall.
    apply in_map_iff. exists (N.to_nat (n mod 64)).
    split; [apply N2Nat.id|]. apply in_seq.
    generalize dependent (n mod 64)%N. intros m Hm. lia. }
  unfold alphabet_checked in Hc. unfold sextet.
  destruct (String.get (N.to_nat (n mod 64)) base64_alphabet) as [c|];
    [|discriminate].
  exists c. split; [reflexivity|].
  destruct (unsextet c) as [m'|]; [|discriminate].
  apply andb_prop in Hc as [Hm' Hp].
  apply N.eqb_eq in Hm'. apply negb_true_iff in Hp. by subst.
Qed.

Lemma one_char c (s : string) : (String c EmptyString ++ s)%string = String c s.
Proof. reflexivity. Qed.

Lemma base64_three a b c rest :
  base64 (a :: b :: c :: rest) =
    (sextet (a / 4) ++ sextet (a * 16 + b / 16)
       ++ sextet (b * 4 + c / 64) ++ sextet c ++ base64 rest)%string.
Proof. reflexivity. Qed.

Lemma decode_one a : byte a -> decode (base64 [a]) = Some [a].
Proof.
  unfold byte. intros Ha. cbn [base64].
  destruct (sextet_char (a / 4)) as (c1 & -> & H1 & _).
  destruct (sextet_char (a * 16)) as (c2 & -> & H2 & _).
  rewrite !one_char. cbn [decode]. rewrite H1, H2.
  change (Ascii.eqb "=" "=") with true. cbn [String.eqb negb].
  do 2 f_equal. euclid.
Qed.

Lemma decode_two a b : byte a -> byte b -> decode (base64 [a; b]) = Some [a; b].
Proof.
  unfold byte. intros Ha Hb. cbn [base64].
  destruct (sextet_char (a / 4)) as (c1 & -> & H1 & _).
  destruct (sextet_char (a * 16 + b / 16)) as (c2 & -> & H2 & _).
  destruct (sextet_char (b * 4)) as (c3 & -> & H3 & Hp3).
  rewrite !one_char. cbn [decode]. rewrite H1, H2, H3, Hp3.
  change (Ascii.eqb "=" "=") with true. cbn [String.eqb negb].
  f_equal. f_equal; [euclid|]. f_equal. euclid.
Qed.

Lemma decode_three a b c rest :
  byte a -> byte b -> byte c ->
  decode (base64 rest) = Some rest ->
  decode (base64 (a :: b :: c :: rest)) = Some (a :: b :: c :: rest).
Proof.
  unfold byte. intros Ha Hb Hc IH. rewrite base64_three.
  destruct (sextet_char (a / 4)) as (c1 & -> & H1 & _).
  destruct (sextet_char (a * 16 + b / 16)) as (c2 & -> & H2 & _).
  destruct (sextet_char (b * 4 + c / 64)) as (c3 & -> & H3 & _).
  destruct (sextet_char c) as (c4 & -> & H4 & Hp4).
  rewrite !one_char. cbn [decode]. rewrite H1, H2, H3, H4, Hp4, IH.
  f_equal. f_equal; [euclid|]. f_equal; [euclid|]. f_equal. euclid.
Qed.

Lemma decode_base64 bytes :
  Forall byte bytes -> decode (base64 bytes) = Some bytes.
Proof.
  assert (Hall : forall rest,
    (Forall byte rest -> decode (base64 rest) = Some rest) /\
    (forall a, Forall byte (a :: rest) ->
               decode (base64 (a :: rest)) = Some (a :: rest)) /\
    (forall a b, Forall byte (a :: b :: rest) ->
                 decode (base64 (a :: b :: rest)) = Some (a :: b :: rest))).
  { induction rest as [|c rest (IH0 & IH1 & IH2)].
    - split; [done|]. split.
      + intros a Ha. apply Forall_cons in Ha as [Ha _]. by apply decode_one.
      + intros a b Hab. apply Forall_cons in Hab as [Ha Hb].
        apply Forall_cons in Hb as [Hb _]. by apply decode_two.
    - split; [apply IH1|]. split; [intros a; apply (IH2 a c)|].
      intros a b Habc. apply Forall_cons in Habc as [Ha Hbc].
      apply Forall_cons in Hbc as [Hb Hc]. apply Forall_cons in Hc as [Hc Hr].
      apply decode_three; auto. }
  apply Hall.
Qed.

Lemma utf8_bytes s : Forall byte (utf8 s).
Proof.
  induction s as [|c s IH]; cbn [utf8]; [constructor|].
  pose proof (N_ascii_bounded c) as Hc.
  destruct (N.ltb_spec (N_of_ascii c) 128).
  - constructor; [unfold byte; lia|done].
  - constructor; [unfold byte; euclid|].
    constructor; [unfold byte; euclid|done].
Qed.

Lemma utf8_injective s : forall t, utf8 s = utf8 t -> s = t.
Proof.
  induction s as [|c s IH]; intros [|d t]; cbn [utf8].
  - done.
  - destruct (N.ltb_spec (N_of_ascii d) 128); discriminate.
  - destruct (N.ltb_spec (N_of_ascii c) 128); discriminate.
  - pose proof (N_ascii_bounded c) as Hc.
    pose proof (N_ascii_bounded d) as Hd.
    assert (Hcd : N_of_ascii c = N_of_ascii d -> c = d).
    { intros H. rewrite <- (ascii_N_embedding c), <- (ascii_N_embedding d).
      by rewrite H. }
    destruct (N.ltb_spec (N_of_ascii c) 128) as [Lc|Lc],
             (N.ltb_spec (N_of_ascii d) 128) as [Ld|Ld]; intros E.
    + injection E as E1 E2. f_equal; [by apply Hcd|by apply IH].
    + injection E as E1 _. exfalso. euclid.
    + injection E as E1 _. exfalso. euclid.
    + injection E as E1 E2 E3. f_equal; [apply Hcd; euclid|by apply IH].
Qed.

Lemma append_cancel (s : string) : forall t u,
  (s ++ t)%string = (s ++ u)%string -> t = u.
Proof.
  induction s as [|c s IH]; intros t u H; [exact H|].
  change (String c (s ++ t)%string = String c (s ++ u)%string) in H.
  injection H as H. by apply IH.
Qed.

(** X22: [generatePassword] gives the timestamp of the clock,
    YYYYMMDDHHmmss (14 digits) for a year up to 9999 and with a six-digit
    year (16 digits) beyond, and a password that decodes (base64) to the
    bytes of short code, pass key and that timestamp; so for one
    configuration two passwords are equal only when their timestamps are:
    the password of one second is not the password of another. *)
Theorem password_decodes_to_timestamp (env : Env) (now : Date) :
  let password := fst (generatePassword env now) in
  let timestamp := snd (generatePassword env now) in
  let rest :=
    (pad 2 (month now) ++ pad 2 (day now) ++ pad 2 (hours now)
       ++ pad 2 (minutes now) ++ pad 2 (seconds now))%string in
  (Z.of_nat (year now) <= 9999 ->
   timestamp = (pad 4 (year now) ++ rest)%string /\
   String.length timestamp = 14%nat) /\
  (9999 < Z.of_nat (year now) ->
   timestamp = (pad 6 (year now) ++ rest)%string /\
   String.length timestamp = 16%nat) /\
  all_chars is_digit timestamp = true /\
  decode password =
    Some (utf8 (interpolate (MPESA_SHORTCODE env)
                  ++ interpolate (MPESA_PASSKEY env) ++ timestamp)%string) /\
  forall later,
    fst (generatePassword env later) = password ->
    snd (generatePassword env later) = timestamp.
Proof.
  intros password timestamp rest. subst password timestamp rest.
  destruct (PasswordProps.generatePassword_fresh env now) as (Hg & Hl & Hd).
  rewrite Hg. cbn [fst snd].
  split; [|split; [|split; [exact Hd|split]]].
  - intros Hy. apply Z.leb_le in Hy. rewrite Hy in Hl |- *. by split.
  - intros Hy. apply Z.leb_gt in Hy. rewrite Hy in Hl |- *. by split.
  - apply decode_base64, utf8_bytes.
  - intros later Hsame.
    destruct (PasswordProps.generatePassword_fresh env later) as (Hg' & _ & _).
    rewrite Hg' in Hsame |- *. cbn [fst snd] in *.
    assert (Hdec : forall s t, base64 (utf8 s) = base64 (utf8 t) -> s = t).
    { intros s t H. apply utf8_injective.
      assert (Some (utf8 s) = Some (utf8 t)) as [= E]; [|exact E].
      rewrite <- (decode_base64 (utf8 s) (utf8_bytes s)).
      rewrite <- (decode_base64 (utf8 t) (utf8_bytes t)). by rewrite H. }
    apply Hdec in Hsame.
    apply append_cancel in Hsame. by apply append_cancel in Hsame.
Qed.

Lemma password_decodes_to_timestamp_witness :
  String.length (snd (generatePassword sandbox june_2021)) = 14%nat /\
  String.length
    (snd (generatePassword sandbox
            {| year := 2 * 5000; month := 1; day := 1; hours := 0;
               minutes := 0; seconds := 0; milliseconds := 0 |})) = 16%nat /\
  snd (generatePassword sandbox
         {| year := 2021; month := 6; day := 28; hours := 9; minutes := 24;
            seconds := 8; milliseconds := 500 |})
  = "20210628092408"%string.
Proof.
  split; [|split].
  - destruct (password_decodes_to_timestamp sandbox june_2021)
      as (Hfour & _).
    apply Hfour. vm_compute. discriminate.
  - destruct (password_decodes_to_timestamp sandbox
                {| year := 2 * 5000; month := 1; day := 1; hours := 0;
                   minutes := 0; seconds := 0; milliseconds := 0 |})
      as (_ & Hsix & _).
    apply Hsix. vm_compute. reflexivity.
  - destruct (password_decodes_to_timestamp sandbox june_2021)
      as (_ & _ & _ & _ & Hsame).
    apply (Hsame {| year := 2021; month := 6; day := 28; hours := 9;
                    minutes := 24; seconds := 8; milliseconds := 500 |}).
    vm_compute. reflexivity.
Defined.

End PasswordMore.
